(** * replay.py: replaying a recorded lap trajectory

    A shallow embedding of [src/replay.py]: the [Trajectory] object with its
    nearest-sample-in-time lookup [closest_point_time], the [ReplayNode]
    whose timer callback [loop] publishes the sample closest to the current
    clock reading, [read_csv] and the main script.

    The code is embedded twice.  The first embedding keeps the cells of a
    column as [read_csv] leaves them and computes with exact rationals [Q],
    equality of two numbers being [Qeq] ([==]); integers (the clock's
    nanoseconds) are [Z], array indices are [nat].  It carries the
    properties in which neither the rounding of float64 nor the dtype numpy
    gives an array plays a role: which exception is raised and when, the
    range of the results, which columns are read, what [read_csv] and the
    main script build.  The second embedding, module [Flt], has the float
    arithmetic as a parameter, numpy's arrays with their dtypes and the
    conversions that can overflow; it carries the statements about the
    values the lookup and the node compute, and, at IEEE 754 binary64,
    evaluates the code on concrete floats. *)

From Stdlib Require Import String List ZArith QArith Qabs Qround Qpower Lia Lqa.
From Stdlib Require Import Qminmax SpecFloat.
Import ListNotations.

Local Open Scope Q_scope.

(** ** Python values and exceptions *)

(** One cell of a column produced by [read_csv]: a float when the field
    parses, the string itself otherwise; [None] is the missing value the
    timestamp check of [closest_point_time] looks for. *)
Inductive cell : Type :=
  | PyNone
  | PyFloat (q : Q)
  | PyStr (s : string).

(** The exceptions the modelled code can raise. *)
Inductive exn : Type :=
  | ValueError (msg : string)
  | TypeError
  | ZeroDivisionError
  | IndexError.

Inductive result (A : Type) : Type :=
  | Ok (a : A)
  | Raise (e : exn).

Arguments Ok {A} a.
Arguments Raise {A} e.

Definition bind {A B : Type} (m : result A) (k : A -> result B) : result B :=
  match m with
  | Ok a => k a
  | Raise e => Raise e
  end.

Notation "x <- m ;; k" := (bind m (fun x => k))
  (at level 61, m at next level, right associativity).

(** ** Float and numpy primitives *)

Module Py.

(** [a % b] on floats: the floored modulo [a - b * floor (a / b)], whose
    sign follows the divisor; a zero divisor raises.  This is the exact
    value; what float64 computes is [Flt.b64_rem]. *)
Definition fmod (a b : Q) : result Q :=
  match Qcompare b 0 with
  | Eq => Raise ZeroDivisionError
  | _ => Ok (a - b * inject_Z (Qfloor (a / b)))
  end.

(** [time % lap_time] where the right operand is a stored cell:
    [float % None] and [float % str] are type errors. *)
Definition mod_cell (a : Q) (b : cell) : result Q :=
  match b with
  | PyFloat q => fmod a q
  | _ => Raise TypeError
  end.

End Py.

Module Np.

(** [arr - s] for an array built by [numpy.asarray] from a list of cells
    and a float [s].  A list of floats gives a float array; as soon as one
    cell is a string or [None] the array has a string or object dtype and
    the subtraction is a type error. *)
Fixpoint sub_scalar (arr : list cell) (s : Q) : result (list Q) :=
  match arr with
  | [] => Ok []
  | PyFloat q :: rest =>
      r <- sub_scalar rest s ;; Ok ((q - s) :: r)
  | _ :: _ => Raise TypeError
  end.

(** [numpy.power(arr, 2)], elementwise and exact; rounded in
    [Flt.distances]. *)
Definition power (arr : list Q) (n : Z) : list Q :=
  map (fun q => Qpower q n) arr.

(** Square root of one element.  On a rational that is the square of a
    rational, numerator and denominator are perfect squares and the root
    is exact (lemma [sqrt_power2] below); the script only takes roots of
    such squares. *)
Definition sqrt1 (q : Q) : Q :=
  Qmake (Z.sqrt (Qnum q)) (Z.to_pos (Z.sqrt (Zpos (Qden q)))).

(** [numpy.sqrt(arr)], elementwise. *)
Definition sqrt (arr : list Q) : list Q := map sqrt1 arr.

(** The scan of [numpy.argmin]: [bi] is the index of the smallest value
    [b] seen so far, [i] the index of the head of the rest.  Only a
    strictly smaller value replaces the current one, so the first
    occurrence of the minimum wins. *)
Fixpoint argmin_from (bi : nat) (b : Q) (i : nat) (arr : list Q) : nat :=
  match arr with
  | [] => bi
  | x :: rest =>
      match Qcompare x b with
      | Lt => argmin_from i x (S i) rest
      | _ => argmin_from bi b (S i) rest
      end
  end.

Definition argmin (arr : list Q) : result nat :=
  match arr with
  | [] => Raise (ValueError "attempt to get argmin of an empty sequence")
  | x :: rest => Ok (argmin_from 0%nat x 1%nat rest)
  end.

(** [i % n] for a numpy integer [i] and an [int] n: numpy's integer
    remainder by zero is 0 (with a warning), not an exception. *)
Definition imod (i n : nat) : nat :=
  match n with
  | O => O
  | S _ => Nat.modulo i n
  end.

(** [arr[i]] for a non-negative index. *)
Definition getitem {A : Type} (arr : list A) (i : nat) : result A :=
  match nth_error arr i with
  | Some a => Ok a
  | None => Raise IndexError
  end.

End Np.

(** ** Trajectory object *)

Record Trajectory : Type := mkTrajectory {
  _x : list cell;
  _y : list cell;
  _t : list cell;
  _t2 : list cell;
  _v : list cell;
  _lap_time : cell
}.

(** [Trajectory.__init__].  The columns [x], [y], [v] are only wrapped by
    [numpy.asarray] and are taken at the type [read_csv] produces, a list of
    cells.  [t + [lap_time]] is the one statement that inspects an
    argument: it needs [t] to be a list, and the keyword default [t = None]
    makes it raise.  Nothing else is checked.  The arrays numpy makes of
    the columns, with their dtypes, are in [Flt.Trajectory_init]. *)
Definition Trajectory_init (x y : list cell) (t : option (list cell))
    (v : list cell) (lap_time : cell) : result Trajectory :=
  match t with
  | None => Raise TypeError
  | Some tl =>
      Ok {| _x := x; _y := y; _t := tl; _t2 := tl ++ [lap_time];
            _v := v; _lap_time := lap_time |}
  end.

(** The [size] property: [len(self._x)]. *)
Definition size (self : Trajectory) : nat := length (_x self).

Definition lacks_timestamps : string :=
  "Unable to find time-closest point as trajectory lacks timestamps.".

(** [self._t[0] is None], after the index access has succeeded. *)
Definition is_None (c : cell) : bool :=
  match c with
  | PyNone => true
  | _ => false
  end.

(** The array [_distances] of [closest_point_time]. *)
Definition distances (self : Trajectory) (time : Q) : result (list Q) :=
  phase <- Py.mod_cell time (_lap_time self) ;;
  diff <- Np.sub_scalar (_t2 self) phase ;;
  Ok (Np.sqrt (Np.power diff 2)).

(** [Trajectory.closest_point_time]. *)
Definition closest_point_time (self : Trajectory) (time : Q)
    : result (Q * nat) :=
  t0 <- Np.getitem (_t self) 0 ;;
  if is_None t0 then Raise (ValueError lacks_timestamps)
  else
    _distances <- distances self time ;;
    k <- Np.argmin _distances ;;
    let _min_i := Np.imod k (size self) in
    d <- Np.getitem _distances _min_i ;;
    Ok (d, _min_i).

(** A column all of whose fields parsed. *)
Definition floats (l : list Q) : list cell := map PyFloat l.

(** ** Node class *)

(** The fields of the [Odometry] message the node fills in. *)
Record Odometry : Type := mkOdometry {
  header_frame_id : string;
  header_stamp : Z;
  position_x : cell;
  position_y : cell
}.

(** [cur_time.nanoseconds / 1.e9], exact; the conversion to a float and
    the float division are in [Flt.to_seconds]. *)
Definition to_seconds (nanoseconds : Z) : Q :=
  inject_Z nanoseconds / inject_Z 1000000000.

Section ReplayNode.

(** The node base class comes from the [autopsy] package, which is not part
    of the repository; [timer] is the type of its running timers. *)
Variable timer : Type.

Record ReplayNode : Type := mkReplayNode {
  _trajectory : Trajectory;
  _frame_id : string;
  _loop : timer
}.

(** [ReplayNode.loop], one firing of the timer.  [now] is the reading of
    [self.Time.now()] in nanoseconds; [published] is the sequence of
    messages handed to [self._pub.publish] so far. *)
Definition loop (self : ReplayNode) (now : Z) (published : list Odometry)
    : result (list Odometry) :=
  r <- closest_point_time (_trajectory self) (to_seconds now) ;;
  let index := snd r in
  px <- Np.getitem (_x (_trajectory self)) index ;;
  py <- Np.getitem (_y (_trajectory self)) index ;;
  Ok (published ++
      [ {| header_frame_id := _frame_id self; header_stamp := now;
           position_x := px; position_y := py |} ]).

End ReplayNode.

Arguments _trajectory {timer} _.
Arguments _frame_id {timer} _.
Arguments _loop {timer} _.
Arguments loop {timer} self now published.

(** ** Valid trajectories *)

(** Each time is at most the next one. *)
Fixpoint nondecreasing (ts : list Q) : Prop :=
  match ts with
  | a :: (b :: _) as rest => a <= b /\ nondecreasing rest
  | _ => True
  end.

(** The invariants of a trajectory built from well-formed columns: [ts] are
    the [N >= 1] recorded times, starting at 0 and non-decreasing, [lap] is
    the positive lap duration, and every column has [N] entries. *)
Definition valid_with (T : Trajectory) (ts : list Q) (lap : Q) : Prop :=
  _t T = floats ts /\ _lap_time T = PyFloat lap /\
  _t2 T = _t T ++ [_lap_time T] /\
  (1 <= length ts)%nat /\
  length (_x T) = length ts /\ length (_y T) = length ts /\
  length (_v T) = length ts /\
  0 < lap /\ nondecreasing ts /\ hd 0 ts == 0.

Definition valid (T : Trajectory) : Prop :=
  exists ts lap, valid_with T ts lap.

(** ** Running example: three samples, lap of 3 s *)

Definition traj3 : Trajectory :=
  {| _x := floats [0; 1; 2]; _y := floats [0; 0; 0];
     _t := floats [0; 1; 2]; _t2 := floats [0; 1; 2; 3];
     _v := floats [5; 5; 5]; _lap_time := PyFloat 3 |}.

(** A second trajectory with the times of [traj3] and other speeds. *)
Definition traj3_fast : Trajectory :=
  {| _x := floats [0; 1; 2]; _y := floats [0; 0; 0];
     _t := floats [0; 1; 2]; _t2 := floats [0; 1; 2; 3];
     _v := floats [9; 8; 7]; _lap_time := PyFloat 3 |}.

(** A node on [traj3] whose timer is already running. *)
Definition node3 : ReplayNode unit :=
  {| _trajectory := traj3; _frame_id := "map"; _loop := tt |}.

(** ** Vocabulary of the statements *)

(** The phase [time % lap] as a number, for a non-zero lap. *)
Definition phase (time lap : Q) : Q :=
  time - lap * inject_Z (Qfloor (time / lap)).

(** The wrapped times: the recorded times followed by the lap duration. *)
Definition wrapped_times (ts : list Q) (lap : Q) : list Q := ts ++ [lap].

(** [deltas ts lap time] lists [|wrapped_times[k] - phase|] for
    [k = 0 .. N]. *)
Definition deltas (ts : list Q) (lap time : Q) : list Q :=
  map (fun w => Qabs (w - phase time lap)) (wrapped_times ts lap).

(** [k] is the first index at which [l] takes its least value. *)
Definition first_min (l : list Q) (k : nat) : Prop :=
  (k < length l)%nat /\
  (forall j, (j < length l)%nat -> nth k l 0 <= nth j l 0) /\
  (forall j, (j < k)%nat -> nth k l 0 < nth j l 0).

(** Following the words of the specification: the index a tick is said to
    use, looked up at the time elapsed since the loop started,
    [clock.now() - start_time]. *)
Definition spec_tick_index (T : Trajectory) (start_time now : Z)
    : result nat :=
  r <- closest_point_time T (to_seconds (now - start_time)) ;;
  Ok (snd r).

(** A trajectory whose columns have different lengths: two positions for
    three times. *)
Definition traj_short_x : Trajectory :=
  {| _x := floats [0; 1]; _y := floats [0; 0];
     _t := floats [0; 1; 2]; _t2 := floats [0; 1; 2; 3];
     _v := []; _lap_time := PyFloat 3 |}.

(** ** Utilities: reading the csv file *)

(** The script also raises [KeyError], on a column the file does not
    have; the other exceptions are the ones above. *)
Inductive script_exn : Type :=
  | KeyError (key : string)
  | Builtin (e : exn).

Inductive outcome (A : Type) : Type :=
  | Return (a : A)
  | Throw (e : script_exn).

Arguments Return {A} a.
Arguments Throw {A} e.

Definition obind {A B : Type} (m : outcome A) (k : A -> outcome B)
    : outcome B :=
  match m with
  | Return a => k a
  | Throw e => Throw e
  end.

Notation "x <-- m ;; k" := (obind m (fun x => k))
  (at level 61, m at next level, right associativity).

Definition lift {A : Type} (r : result A) : outcome A :=
  match r with
  | Ok a => Return a
  | Raise e => Throw (Builtin e)
  end.

(** A [dict] with string keys, in insertion order; a key occurs once. *)
Fixpoint dict_get {V : Type} (key : string) (d : list (string * V))
    : option V :=
  match d with
  | [] => None
  | (k, w) :: rest => if String.eqb k key then Some w else dict_get key rest
  end.

(** [d[key] = v]: replaces the value of a key that is there, adds a new key
    at the end. *)
Fixpoint dict_set {V : Type} (key : string) (v : V) (d : list (string * V))
    : list (string * V) :=
  match d with
  | [] => [(key, v)]
  | (k, w) :: rest =>
      if String.eqb k key then (k, v) :: rest
      else (k, w) :: dict_set key v rest
  end.

(** [dict(pairs)] and [{k: v for ...}]: later pairs overwrite earlier
    ones. *)
Definition dict_of_pairs {V : Type} (pairs : list (string * V))
    : list (string * V) :=
  fold_left (fun d kv => dict_set (fst kv) (snd kv) d) pairs [].

(** [d[key]] *)
Definition dict_getitem {V : Type} (d : list (string * V)) (key : string)
    : outcome V :=
  match dict_get key d with
  | Some v => Return v
  | None => Throw (KeyError key)
  end.

(** The dict of lists that [read_csv] builds. *)
Definition table : Type := list (string * list cell).

(** A value of a row dict of [csv.DictReader]: a field of the file, or the
    [None] that fills the missing fields of a short row. *)
Inductive csv_value : Type :=
  | CsvStr (s : string)
  | CsvNone.

(** A row dict of [csv.DictReader]: the values by field name and, for a row
    with more fields than the header, the surplus fields, which the reader
    stores last, under the key [None]. *)
Record csv_line : Type := mkLine {
  line_items : list (string * csv_value);
  line_rest : option (list string)
}.

(** The row dict [csv.DictReader] makes of a non-blank row. *)
Definition DictReader_next (fieldnames row : list string) : csv_line :=
  let d := dict_of_pairs (combine fieldnames (map CsvStr row)) in
  let lf := length fieldnames in
  let lr := length row in
  if (lf <? lr)%nat then
    {| line_items := d; line_rest := Some (skipn lf row) |}
  else if (lr <? lf)%nat then
    {| line_items :=
         fold_left (fun d key => dict_set key CsvNone d)
                   (skipn lr fieldnames) d;
       line_rest := None |}
  else {| line_items := d; line_rest := None |}.

Section ReadCsv.

(** The builtin [float] on a string: the number, or [None] where it raises
    [ValueError]. *)
Variable float_of_string : string -> option Q.

(** [try: value = float(value) except ValueError: pass].  On the [None] of
    a short row [float] raises a [TypeError], which is not caught. *)
Definition float_or_keep (value : csv_value) : outcome cell :=
  match value with
  | CsvNone => Throw (Builtin TypeError)
  | CsvStr s =>
      match float_of_string s with
      | Some q => Return (PyFloat q)
      | None => Return (PyStr s)
      end
  end.

(** [data[key].append(value)] *)
Definition append (data : table) (key : string) (value : cell)
    : outcome table :=
  col <-- dict_getitem data key ;;
  Return (dict_set key (col ++ [value]) data).

(** The inner loop of [read_csv] over the items of one row dict. *)
Fixpoint read_items (data : table) (items : list (string * csv_value))
    : outcome table :=
  match items with
  | [] => Return data
  | (key, value) :: rest =>
      v <-- float_or_keep value ;;
      data' <-- append data key v ;;
      read_items data' rest
  end.

(** One row dict: its items, then the surplus fields, a list, on which
    [float] raises a [TypeError]. *)
Definition read_line (data : table) (line : csv_line) : outcome table :=
  data' <-- read_items data (line_items line) ;;
  match line_rest line with
  | None => Return data'
  | Some _ => Throw (Builtin TypeError)
  end.

(** The outer loop of [read_csv]; [csv.DictReader] skips the blank rows. *)
Fixpoint read_rows (fieldnames : list string) (data : table)
    (rows : list (list string)) : outcome table :=
  match rows with
  | [] => Return data
  | [] :: later => read_rows fieldnames data later
  | row :: later =>
      data' <-- read_line data (DictReader_next fieldnames row) ;;
      read_rows fieldnames data' later
  end.

(** [read_csv].  [reader] is the sequence of rows [csv.reader] yields for
    the file, each a list of fields; the first one is the header.  For an
    empty file [dr.fieldnames] is [None] and iterating over it raises. *)
Definition read_csv (reader : list (list string)) : outcome table :=
  match reader with
  | [] => Throw (Builtin TypeError)
  | fieldnames :: rows =>
      read_rows fieldnames
                (dict_of_pairs (map (fun field => (field, [])) fieldnames))
                rows
  end.

End ReadCsv.

(** ** Main *)

(** Steps 1 and 2 of the script after the file is read: the first entry of
    the column [t_s] is taken as the lap time and replaced by [.0], then
    the trajectory is built from the four columns. *)
Definition main_trajectory (data : table) : outcome Trajectory :=
  t_s <-- dict_getitem data "t_s" ;;
  lap_time <-- lift (Np.getitem t_s 0) ;;
  let data := dict_set "t_s" (PyFloat 0 :: tl t_s) data in
  x <-- dict_getitem data "x_m" ;;
  y <-- dict_getitem data "y_m" ;;
  v <-- dict_getitem data "v_mps" ;;
  t <-- dict_getitem data "t_s" ;;
  lift (Trajectory_init x y (Some t) v lap_time).

(** Reading the file and building the trajectory. *)
Definition main (float_of_string : string -> option Q)
    (reader : list (list string)) : outcome Trajectory :=
  data <-- read_csv float_of_string reader ;;
  main_trajectory data.

(** ** A file for the examples *)

(** [float] on the strings of decimal digits, enough for the examples. *)
Fixpoint digits_value (s : string) (acc : Z) : option Z :=
  match s with
  | EmptyString => Some acc
  | String c rest =>
      let n := Z.of_nat (Ascii.nat_of_ascii c) in
      if ((48 <=? n) && (n <=? 57))%Z
      then digits_value rest (10 * acc + (n - 48))%Z
      else None
  end.

Definition digits_float (s : string) : option Q :=
  match s with
  | EmptyString => None
  | _ => option_map inject_Z (digits_value s 0)
  end.

(** A lap of 3 s recorded in three rows; the first [t_s] field holds the
    lap time. *)
Definition file3 : list (list string) :=
  [ ["t_s"; "x_m"; "y_m"; "v_mps"];
    ["3"; "0"; "0"; "5"];
    ["1"; "1"; "0"; "5"];
    [];
    ["2"; "2"; "0"; "5"] ]%string.

(** ** Vocabulary for the file *)

(** The cell [read_csv] stores for a field: its number when [float]
    accepts it, the field itself otherwise. *)
Definition field_cell (float_of_string : string -> option Q) (s : string)
    : cell :=
  match float_of_string s with
  | Some q => PyFloat q
  | None => PyStr s
  end.

Definition blank (row : list string) : bool :=
  match row with
  | [] => true
  | _ => false
  end.

(** The rows that are not blank. *)
Definition data_rows (rows : list (list string)) : list (list string) :=
  filter (fun row => negb (blank row)) rows.

(** The fields number [i] of the rows. *)
Definition column (i : nat) (rows : list (list string)) : list string :=
  map (fun row => nth i row EmptyString) rows.

(** A row that is blank or has as many fields as the header. *)
Definition full_or_blank (fieldnames row : list string) : Prop :=
  row = [] \/ length row = length fieldnames.

(** A file with a header all of whose rows are blank or full. *)
Definition well_shaped (reader : list (list string)) : Prop :=
  match reader with
  | [] => False
  | fieldnames :: rows => Forall (full_or_blank fieldnames) rows
  end.

(** A value of a row dict that is a field of the file. *)
Definition is_field (kv : string * csv_value) : Prop :=
  exists s, snd kv = CsvStr s.

(** A file whose times start at 0. *)
Definition data_from_zero : table :=
  [ ("t_s", floats [0; 1; 2]); ("x_m", floats [0; 1; 2]);
    ("y_m", floats [0; 0; 0]); ("v_mps", floats [5; 5; 5]) ]%string.

(** * The code over float64 and numpy arrays

    The definitions above keep the cells of a column as they are and
    compute with exact rationals; they carry the properties that depend
    neither on rounding nor on the dtype of an array.  Module [Flt] embeds
    the same code with what they leave out: the arithmetic is a parameter,
    an [arithmetic] with the operations of Python and numpy floats, so that
    a statement proved for every arithmetic holds of float64 whatever the
    rounding does; [numpy.asarray] chooses the dtype of each array; the
    conversions of integers to floats can overflow.  [Flt.binary64] is IEEE
    754 binary64 itself, on the Standard Library's [spec_float], and
    evaluates the code at concrete floats. *)

Module Flt.

Inductive exn : Type :=
  | IndexError
  | ValueError (msg : string)
  | TypeError
  | ZeroDivisionError
  | OverflowError
  | Foreign (name : string).

Inductive result (A : Type) : Type :=
  | Ok (a : A)
  | Raise (e : exn).

Arguments Ok {A} a.
Arguments Raise {A} e.

Definition bind {A B : Type} (m : result A) (k : A -> result B) : result B :=
  match m with
  | Ok a => k a
  | Raise e => Raise e
  end.

Notation "x <~ m ;; k" := (bind m (fun x => k))
  (at level 61, m at next level, right associativity).

(** The float operations the script uses. *)
Record arithmetic : Type := mkArithmetic {
  num : Type;
  (** [float(n)] for an [int]: [None] where it raises [OverflowError] *)
  of_int : Z -> option num;
  float_0 : num;
  float_1 : num;
  float_1e9 : num;
  (** [x == 0.0] *)
  is_zero : num -> bool;
  isnan : num -> bool;
  (** [x >= y], false as soon as one of them is a NaN *)
  ge : num -> num -> bool;
  sub : num -> num -> num;
  (** [x / y] for a divisor that is not zero *)
  div : num -> num -> num;
  (** Python's [x % y] for a divisor that is not zero *)
  rem : num -> num -> num;
  (** [numpy.power(x, 2)] *)
  square : num -> num;
  sqrt : num -> num
}.

Section Code.

Variable A : arithmetic.

(** One entry of a column of [read_csv]. *)
Inductive cell : Type :=
  | PyNone
  | PyFloat (f : num A)
  | PyStr (s : string).

(** An entry of a numpy array of strings: a string of the column, or the
    text numpy makes of a float of the column. *)
Inductive text : Type :=
  | Str (s : string)
  | StrOfFloat (f : num A).

(** A one-dimensional numpy array with its dtype: float64, unicode
    strings, or Python objects. *)
Inductive ndarray : Type :=
  | FloatArray (a : list (num A))
  | StrArray (a : list text)
  | ObjectArray (a : list cell).

(** What indexing an array gives. *)
Inductive element : Type :=
  | ENum (f : num A)
  | EText (t : text)
  | EObject (c : cell).

Fixpoint all_floats (col : list cell) : option (list (num A)) :=
  match col with
  | [] => Some []
  | PyFloat f :: rest => option_map (cons f) (all_floats rest)
  | _ :: _ => None
  end.

Definition is_None (c : cell) : bool :=
  match c with
  | PyNone => true
  | _ => false
  end.

Definition to_text (c : cell) : text :=
  match c with
  | PyFloat f => StrOfFloat f
  | PyStr s => Str s
  | PyNone => Str "None"
  end.

(** [numpy.asarray(col)] for a list of cells: a float array when all cells
    are floats (also for the empty list); an object array, which keeps the
    cells, as soon as one cell is [None]; otherwise an array of strings, in
    which the floats of the column are turned into text. *)
Definition asarray (col : list cell) : ndarray :=
  match all_floats col with
  | Some a => FloatArray a
  | None =>
      if existsb is_None col then ObjectArray col
      else StrArray (map to_text col)
  end.

Definition elements (a : ndarray) : list element :=
  match a with
  | FloatArray l => map ENum l
  | StrArray l => map EText l
  | ObjectArray l => map EObject l
  end.

(** [len(a)] *)
Definition len (a : ndarray) : nat := length (elements a).

(** [a[i]] for a non-negative index. *)
Definition getitem (a : ndarray) (i : nat) : result element :=
  match nth_error (elements a) i with
  | Some x => Ok x
  | None => Raise IndexError
  end.

(** [x is None] *)
Definition element_is_None (x : element) : bool :=
  match x with
  | EObject PyNone => true
  | _ => false
  end.

(** [time % lap_time] for a float [time] and the stored lap time. *)
Definition mod_cell (time : num A) (lap_time : cell) : result (num A) :=
  match lap_time with
  | PyFloat lap =>
      if is_zero A lap then Raise ZeroDivisionError
      else Ok (rem A time lap)
  | _ => Raise TypeError
  end.

(** [a - s] for a float [s]: elementwise on a float array; on an array of
    strings the subtraction has no loop, and an object array holds a
    [None], which cannot be subtracted from. *)
Definition sub_scalar (a : ndarray) (s : num A) : result (list (num A)) :=
  match a with
  | FloatArray l => Ok (map (fun w => sub A w s) l)
  | _ => Raise TypeError
  end.

(** The loop of [numpy.argmin] on floats: a value replaces the current
    least one [b] when it is not [>= b]; a NaN is taken and ends the
    loop. *)
Fixpoint argmin_from (bi : nat) (b : num A) (i : nat) (arr : list (num A))
    : nat :=
  match arr with
  | [] => bi
  | x :: rest =>
      if ge A x b then argmin_from bi b (S i) rest
      else if isnan A x then i
      else argmin_from i x (S i) rest
  end.

Definition argmin (arr : list (num A)) : result nat :=
  match arr with
  | [] => Raise (ValueError "attempt to get argmin of an empty sequence")
  | x :: rest =>
      if isnan A x then Ok 0%nat else Ok (argmin_from 0%nat x 1%nat rest)
  end.

(** [i % n] on numpy integers: 0, with a warning, for [n = 0]. *)
Definition imod (i n : nat) : nat :=
  match n with
  | O => O
  | S _ => Nat.modulo i n
  end.

Definition getnum (arr : list (num A)) (i : nat) : result (num A) :=
  match nth_error arr i with
  | Some x => Ok x
  | None => Raise IndexError
  end.

(** *** Trajectory object *)

Record Trajectory : Type := mkTrajectory {
  _x : ndarray;
  _y : ndarray;
  _t : ndarray;
  _t2 : ndarray;
  _v : ndarray;
  _lap_time : cell
}.

(** [Trajectory.__init__]; [t = None] is the keyword default, on which
    [t + [lap_time]] raises. *)
Definition Trajectory_init (x y : list cell) (t : option (list cell))
    (v : list cell) (lap_time : cell) : result Trajectory :=
  match t with
  | None => Raise TypeError
  | Some tl =>
      Ok {| _x := asarray x; _y := asarray y; _t := asarray tl;
            _t2 := asarray (tl ++ [lap_time]); _v := asarray v;
            _lap_time := lap_time |}
  end.

Definition size (self : Trajectory) : nat := len (_x self).

Definition lacks_timestamps : string :=
  "Unable to find time-closest point as trajectory lacks timestamps.".

(** The array [_distances]. *)
Definition distances (self : Trajectory) (time : num A)
    : result (list (num A)) :=
  phase <~ mod_cell time (_lap_time self) ;;
  diff <~ sub_scalar (_t2 self) phase ;;
  Ok (map (sqrt A) (map (square A) diff)).

(** [Trajectory.closest_point_time] *)
Definition closest_point_time (self : Trajectory) (time : num A)
    : result (num A * nat) :=
  t0 <~ getitem (_t self) 0 ;;
  if element_is_None t0 then Raise (ValueError lacks_timestamps)
  else
    _distances <~ distances self time ;;
    k <~ argmin _distances ;;
    let _min_i := imod k (size self) in
    d <~ getnum _distances _min_i ;;
    Ok (d, _min_i).

(** *** Node class *)

(** The fields of the [Odometry] message the node sets; the positions are
    array elements as indexing returns them. *)
Record Odometry : Type := mkOdometry {
  header_frame_id : string;
  header_stamp : Z;
  position_x : element;
  position_y : element
}.

(** [cur_time.nanoseconds / 1.e9]: the integer is converted to a float,
    then divided. *)
Definition to_seconds (nanoseconds : Z) : result (num A) :=
  match of_int A nanoseconds with
  | None => Raise OverflowError
  | Some f => Ok (div A f (float_1e9 A))
  end.

(** [1. / rate] for an [int] rate. *)
Definition truediv_1 (rate : Z) : result (num A) :=
  match of_int A rate with
  | None => Raise OverflowError
  | Some r =>
      if is_zero A r then Raise ZeroDivisionError
      else Ok (div A (float_1 A) r)
  end.

Section Node.

(** The node base class is not part of the repository.  Its three calls
    are parameters: the constructor of the base class, [create_publisher]
    and [create_timer(period, self.loop).run()]; each returns or raises. *)
Variables publisher timer : Type.
Variable super_init : result unit.
Variable create_publisher : result publisher.
Variable create_timer : num A -> result timer.

Record ReplayNode : Type := mkReplayNode {
  _trajectory : Trajectory;
  _frame_id : string;
  _pub : publisher;
  _loop : timer
}.

(** [ReplayNode.__init__] *)
Definition ReplayNode_init (trajectory : Trajectory) (rate : Z)
    (frame_id : string) : result ReplayNode :=
  _ <~ super_init ;;
  pub <~ create_publisher ;;
  period <~ truediv_1 rate ;;
  tm <~ create_timer period ;;
  Ok {| _trajectory := trajectory; _frame_id := frame_id;
        _pub := pub; _loop := tm |}.

(** [ReplayNode.loop] at the clock reading [now], in nanoseconds;
    [published] are the messages handed to the publisher so far. *)
Definition loop (self : ReplayNode) (now : Z) (published : list Odometry)
    : result (list Odometry) :=
  seconds <~ to_seconds now ;;
  r <~ closest_point_time (_trajectory self) seconds ;;
  let index := snd r in
  px <~ getitem (_x (_trajectory self)) index ;;
  py <~ getitem (_y (_trajectory self)) index ;;
  Ok (published ++
      [ {| header_frame_id := _frame_id self; header_stamp := now;
           position_x := px; position_y := py |} ]).

(** A run of the timer: one firing of [loop] per clock reading, in order;
    an exception of the callback ends the run. *)
Fixpoint ticks (self : ReplayNode) (nows : list Z)
    (published : list Odometry) : result (list Odometry) :=
  match nows with
  | [] => Ok published
  | now :: later =>
      p <~ loop self now published ;; ticks self later p
  end.

(** What a message of a run says: it carries the frame id of the node,
    and its position is the one of the sample the lookup returns for the
    float seconds of its stamp. *)
Definition tick_message (self : ReplayNode) (msg : Odometry) : Prop :=
  header_frame_id msg = _frame_id self /\
  exists s d i,
    to_seconds (header_stamp msg) = Ok s /\
    closest_point_time (_trajectory self) s = Ok (d, i) /\
    getitem (_x (_trajectory self)) i = Ok (position_x msg) /\
    getitem (_y (_trajectory self)) i = Ok (position_y msg).

End Node.

(** *** Valid trajectories *)

Fixpoint nondecreasing (ts : list (num A)) : Prop :=
  match ts with
  | a :: (b :: _) as rest => ge A b a = true /\ nondecreasing rest
  | _ => True
  end.

(** The invariants of the data model: [N >= 1] samples, numeric columns of
    [N] entries each, times that start at 0 and do not decrease, a positive
    lap time. *)
Definition valid_with (T : Trajectory) (ts : list (num A)) (lap : num A)
    : Prop :=
  _t T = FloatArray ts /\ _lap_time T = PyFloat lap /\
  _t2 T = FloatArray (ts ++ [lap]) /\
  (1 <= length ts)%nat /\
  (exists xs, _x T = FloatArray xs /\ length xs = length ts) /\
  (exists ys, _y T = FloatArray ys /\ length ys = length ts) /\
  (exists vs, _v T = FloatArray vs /\ length vs = length ts) /\
  ge A lap (float_0 A) = true /\ is_zero A lap = false /\
  nondecreasing ts /\
  match ts with t0 :: _ => is_zero A t0 = true | [] => False end.

(** [x <= y] as [numpy.argmin] orders floats: a NaN comes before
    everything. *)
Definition at_most (x y : num A) : Prop :=
  isnan A x = true \/ (isnan A y = false /\ ge A y x = true).

(** [k] is the first index at which [l] is least in the order of
    [numpy.argmin]. *)
Definition first_least (l : list (num A)) (k : nat) : Prop :=
  (k < length l)%nat /\
  (forall j, (j < length l)%nat ->
     at_most (nth k l (float_0 A)) (nth j l (float_0 A))) /\
  (forall j, (j < k)%nat ->
     ~ at_most (nth j l (float_0 A)) (nth k l (float_0 A))).

(** The state of the scan after a prefix without NaN. *)
Definition scanned (pre : list (num A)) (bi : nat) : Prop :=
  Forall (fun x => isnan A x = false) pre /\ first_least pre bi.

(** The distances to the wrapped times as the code computes them. *)
Definition computed_distances (ts : list (num A)) (lap time : num A)
    : list (num A) :=
  map (sqrt A)
      (map (square A)
           (map (fun w => sub A w (rem A time lap)) (ts ++ [lap]))).

End Code.

Arguments PyNone {A}.
Arguments PyFloat {A} f.
Arguments PyStr {A} s.
Arguments FloatArray {A} a.
Arguments StrArray {A} a.
Arguments ObjectArray {A} a.
Arguments ENum {A} f.
Arguments EText {A} t.
Arguments EObject {A} c.
Arguments Str {A} s.
Arguments StrOfFloat {A} f.
Arguments asarray {A} col.
Arguments len {A} a.
Arguments getitem {A} a i.
Arguments Trajectory_init {A} x y t v lap_time.
Arguments size {A} self.
Arguments distances {A} self time.
Arguments closest_point_time {A} self time.
Arguments mod_cell {A} time lap_time.
Arguments argmin {A} arr.
Arguments valid_with {A} T ts lap.
Arguments at_most {A} x y.
Arguments first_least {A} l k.
Arguments scanned {A} pre bi.
Arguments computed_distances {A} ts lap time.
Arguments to_seconds {A} nanoseconds.
Arguments ReplayNode_init {A publisher timer} super_init create_publisher
  create_timer trajectory rate frame_id.
Arguments loop {A publisher timer} self now published.
Arguments ticks {A publisher timer} self nows published.
Arguments tick_message {A publisher timer} self msg.
Arguments _trajectory {A publisher timer} _.
Arguments _frame_id {A publisher timer} _.
Arguments _x {A} _.
Arguments _y {A} _.
Arguments _t {A} _.
Arguments _t2 {A} _.
Arguments _v {A} _.
Arguments _lap_time {A} _.
Arguments header_frame_id {A} _.
Arguments header_stamp {A} _.
Arguments position_x {A} _.
Arguments position_y {A} _.

(** The laws of [>=] the scan of [argmin] relies on; IEEE 754 has them. *)
Record ordered (A : arithmetic) : Prop := mkOrdered {
  ge_nan_l : forall x y, isnan A x = true -> ge A x y = false;
  ge_nan_r : forall x y, isnan A y = true -> ge A x y = false;
  ge_total : forall x y, isnan A x = false -> isnan A y = false ->
    ge A x y = true \/ ge A y x = true;
  ge_trans : forall x y z, ge A x y = true -> ge A y z = true ->
    ge A x z = true
}.

(** *** IEEE 754 binary64 *)

Definition prec : Z := 53%Z.
Definition emax : Z := 1024%Z.

(** The float nearest to an integer, ties to even; an infinity beyond the
    range. *)
Definition round_int (n : Z) : spec_float :=
  binary_normalize prec emax n 0%Z false.

(** [float(n)] *)
Definition b64_of_int (n : Z) : option spec_float :=
  match round_int n with
  | S754_infinity _ => None
  | f => Some f
  end.

(** The float of the decimal literal [n / d], for integers [n] and [d]
    that are floats themselves: the division rounds correctly. *)
Definition dec (n d : Z) : spec_float :=
  SFdiv prec emax (round_int n) (round_int d).

(** C's [fmod]: the exact remainder of the truncated division, with the
    sign of [x]. *)
Definition fmod (x y : spec_float) : spec_float :=
  match x, y with
  | S754_nan, _ | _, S754_nan => S754_nan
  | S754_infinity _, _ => S754_nan
  | _, S754_zero _ => S754_nan
  | _, S754_infinity _ => x
  | S754_zero _, _ => x
  | S754_finite sx mx ex, S754_finite _ my ey =>
      let e := Z.min ex ey in
      let X := Z.shiftl (Zpos mx) (ex - e)%Z in
      let Y := Z.shiftl (Zpos my) (ey - e)%Z in
      binary_normalize prec emax (cond_Zopp sx (Z.rem X Y)) e sx
  end.

Definition b64_is_zero (x : spec_float) : bool :=
  match x with
  | S754_zero _ => true
  | _ => false
  end.

Definition b64_isnan (x : spec_float) : bool :=
  match x with
  | S754_nan => true
  | _ => false
  end.

(** [x < 0] *)
Definition b64_negative (x : spec_float) : bool :=
  SFltb x (S754_zero false).

(** [float_rem] of CPython: [fmod], then the divisor is added when the
    signs differ, and a zero remainder takes the sign of the divisor. *)
Definition b64_rem (v w : spec_float) : spec_float :=
  let m := fmod v w in
  if b64_is_zero m then
    match w with
    | S754_zero s | S754_infinity s | S754_finite s _ _ => S754_zero s
    | S754_nan => S754_zero false
    end
  else if Bool.eqb (b64_negative w) (b64_negative m) then m
  else SFadd prec emax m w.

Definition binary64 : arithmetic :=
  {| num := spec_float;
     of_int := b64_of_int;
     float_0 := S754_zero false;
     float_1 := round_int 1%Z;
     float_1e9 := round_int 1000000000%Z;
     is_zero := b64_is_zero;
     isnan := b64_isnan;
     ge := fun x y => SFleb y x;
     sub := SFsub prec emax;
     div := SFdiv prec emax;
     rem := b64_rem;
     square := fun x => SFmul prec emax x x;
     sqrt := SFsqrt prec emax |}.

(** The place of a float that is not a NaN in the order of [SFcompare]:
    by sign, then exponent, then mantissa. *)
Definition key (x : spec_float) : Z * Z * Z :=
  match x with
  | S754_infinity true => (-2, 0, 0)%Z
  | S754_finite true m e => (-1, - e, - Zpos m)%Z
  | S754_zero _ => (0, 0, 0)%Z
  | S754_nan => (0, 0, 0)%Z
  | S754_finite false m e => (1, e, Zpos m)%Z
  | S754_infinity false => (2, 0, 0)%Z
  end.

Definition lex_le (a b : Z * Z * Z) : Prop :=
  (fst (fst a) < fst (fst b))%Z \/
  (fst (fst a) = fst (fst b) /\
   ((snd (fst a) < snd (fst b))%Z \/
    (snd (fst a) = snd (fst b) /\ (snd a <= snd b)%Z))).

(** A float column of decimal literals, each given as numerator and
    denominator. *)
Definition column64 (l : list (Z * Z)) : list (@cell binary64) :=
  map (fun nd => @PyFloat binary64 (dec (fst nd) (snd nd))) l.

(** A float array of integers. *)
Definition ints (l : list Z) : ndarray binary64 :=
  @FloatArray binary64 (map round_int l).

(** The trajectory of the running example: times 0, 1, 2, lap of 3 s. *)
Definition traj3 : Trajectory binary64 :=
  {| _x := ints [0; 1; 2]%Z; _y := ints [0; 0; 0]%Z;
     _t := ints [0; 1; 2]%Z; _t2 := ints [0; 1; 2; 3]%Z;
     _v := ints [5; 5; 5]%Z; _lap_time := @PyFloat binary64 (round_int 3%Z) |}.

(** Times 0, 3, 5 with a lap of 3 s: the lap ends before the last
    sample. *)
Definition traj_short_lap : Trajectory binary64 :=
  {| _x := ints [0; 1; 2]%Z; _y := ints [0; 0; 0]%Z;
     _t := ints [0; 3; 5]%Z; _t2 := ints [0; 3; 5; 3]%Z;
     _v := ints [5; 5; 5]%Z; _lap_time := @PyFloat binary64 (round_int 3%Z) |}.

(** Times 0, 0.942, 7.63245 with a lap of 10 s. *)
Definition traj_rounded : Trajectory binary64 :=
  {| _x := ints [0; 1; 2]%Z; _y := ints [0; 0; 0]%Z;
     _t := @FloatArray binary64
             [round_int 0%Z; dec 942%Z 1000%Z; dec 763245%Z 100000%Z];
     _t2 := @FloatArray binary64
              [round_int 0%Z; dec 942%Z 1000%Z; dec 763245%Z 100000%Z;
               round_int 10%Z];
     _v := ints [5; 5; 5]%Z;
     _lap_time := @PyFloat binary64 (round_int 10%Z) |}.

(** A node on [traj3] with a publisher and a running timer. *)
Definition node3 : ReplayNode binary64 unit unit :=
  {| _trajectory := traj3; _frame_id := "map"; _pub := tt; _loop := tt |}.

(** The query times of the examples. *)
Definition t_1_4 : spec_float := dec 14%Z 10%Z.
Definition t_4_4 : spec_float :=
  SFadd prec emax (dec 14%Z 10%Z) (round_int 3%Z).
Definition t_half_up : spec_float := S754_finite false 4503599627370497 (-53)%Z.
Definition t_half_up_3 : spec_float :=
  SFadd prec emax t_half_up (round_int 3%Z).

End Flt.

(** * Lemmas *)

(** ** The running example *)

Lemma traj3_valid_with : valid_with traj3 [0; 1; 2] 3.
Proof.
  unfold valid_with; simpl.
  repeat split; try reflexivity; try lia; try lra.
Qed.

Lemma traj3_valid : valid traj3.
Proof. exists [0; 1; 2], 3. exact traj3_valid_with. Qed.

(** ** Arithmetic of the primitives *)

Lemma Qpower_2 (q : Q) : Qpower q 2 = q * q.
Proof. reflexivity. Qed.

Lemma to_pos_sqrt_square (d : positive) :
  Z.to_pos (Z.sqrt (Zpos (d * d))) = d.
Proof.
  rewrite Pos2Z.inj_mul, Z.sqrt_square by lia. reflexivity.
Qed.

Lemma Zsqrt_square_abs (n : Z) : Z.sqrt (n * n) = Z.abs n.
Proof.
  destruct (Z.le_gt_cases 0 n) as [H | H].
  - rewrite Z.sqrt_square, Z.abs_eq by lia. reflexivity.
  - replace (n * n)%Z with ((- n) * (- n))%Z by lia.
    rewrite Z.sqrt_square, Z.abs_neq by lia. reflexivity.
Qed.

(** The root of a square is the absolute value, exactly. *)
Lemma sqrt_power2 (q : Q) : Np.sqrt1 (Qpower q 2) = Qabs q.
Proof.
  rewrite Qpower_2. destruct q as [n d].
  unfold Np.sqrt1, Qmult, Qabs; cbn [Qnum Qden].
  rewrite Zsqrt_square_abs, to_pos_sqrt_square. reflexivity.
Qed.

Lemma sqrt_power_map (l : list Q) :
  Np.sqrt (Np.power l 2) = map Qabs l.
Proof.
  unfold Np.sqrt, Np.power. rewrite map_map.
  apply map_ext. intro q. apply sqrt_power2.
Qed.

Lemma sub_scalar_floats (l : list Q) (s : Q) :
  Np.sub_scalar (floats l) s = Ok (map (fun q => q - s) l).
Proof.
  unfold floats.
  induction l as [| q l IH]; cbn [map Np.sub_scalar]; [reflexivity |].
  rewrite IH. reflexivity.
Qed.

Lemma fmod_pos (a b : Q) : 0 < b -> Py.fmod a b = Ok (phase a b).
Proof.
  intro Hb. unfold Py.fmod.
  destruct (Qcompare b 0) eqn:E; try reflexivity.
  apply Qeq_alt in E. lra.
Qed.

(** ** The scan of argmin *)

Lemma first_min_snoc_lt (pre : list Q) (bi : nat) (x : Q) :
  first_min pre bi -> x < nth bi pre 0 ->
  first_min (pre ++ [x]) (length pre).
Proof.
  intros (Hlt & Hmin & Hfst) Hx.
  assert (Hn : nth (length pre) (pre ++ [x]) 0 = x)
    by (rewrite app_nth2, Nat.sub_diag by lia; reflexivity).
  unfold first_min. rewrite Hn, length_app. cbn [length].
  split; [lia | split].
  - intros j Hj. destruct (Nat.eq_dec j (length pre)) as [-> | Hne].
    + rewrite Hn. lra.
    + rewrite app_nth1 by lia.
      assert (nth bi pre 0 <= nth j pre 0) by (apply Hmin; lia). lra.
  - intros j Hj. rewrite app_nth1 by lia.
    assert (nth bi pre 0 <= nth j pre 0) by (apply Hmin; lia). lra.
Qed.

Lemma first_min_snoc_ge (pre : list Q) (bi : nat) (x : Q) :
  first_min pre bi -> nth bi pre 0 <= x ->
  first_min (pre ++ [x]) bi.
Proof.
  intros (Hlt & Hmin & Hfst) Hx.
  unfold first_min. rewrite length_app. cbn [length].
  rewrite (app_nth1 pre [x] 0 Hlt).
  split; [lia | split].
  - intros j Hj. destruct (Nat.eq_dec j (length pre)) as [-> | Hne].
    + rewrite app_nth2, Nat.sub_diag by lia. exact Hx.
    + rewrite app_nth1 by lia. apply Hmin. lia.
  - intros j Hj. rewrite app_nth1 by lia. apply Hfst. exact Hj.
Qed.

Lemma argmin_from_spec (rest : list Q) :
  forall (pre : list Q) (bi : nat),
    first_min pre bi ->
    first_min (pre ++ rest)
              (Np.argmin_from bi (nth bi pre 0) (length pre) rest).
Proof.
  induction rest as [| x rest IH]; intros pre bi Hpre.
  - rewrite app_nil_r. exact Hpre.
  - cbn [Np.argmin_from].
    replace (pre ++ x :: rest) with ((pre ++ [x]) ++ rest)
      by (rewrite <- app_assoc; reflexivity).
    replace (S (length pre)) with (length (pre ++ [x]))
      by (rewrite length_app; cbn [length]; lia).
    destruct (Qcompare x (nth bi pre 0)) eqn:E.
    + apply Qeq_alt in E.
      assert (Hk : first_min (pre ++ [x]) bi)
        by (apply first_min_snoc_ge; [assumption | lra]).
      specialize (IH _ _ Hk).
      rewrite (app_nth1 pre [x] 0 (proj1 Hpre)) in IH. exact IH.
    + apply Qlt_alt in E.
      assert (Hk : first_min (pre ++ [x]) (length pre))
        by (eapply first_min_snoc_lt; eassumption).
      specialize (IH _ _ Hk).
      rewrite app_nth2, Nat.sub_diag in IH by lia. exact IH.
    + apply Qgt_alt in E.
      assert (Hk : first_min (pre ++ [x]) bi)
        by (apply first_min_snoc_ge; [assumption | lra]).
      specialize (IH _ _ Hk).
      rewrite (app_nth1 pre [x] 0 (proj1 Hpre)) in IH. exact IH.
Qed.

Lemma first_min_singleton (x : Q) : first_min [x] 0.
Proof.
  unfold first_min; cbn [length].
  split; [lia | split]; intros j Hj; [| lia].
  replace j with 0%nat by lia. cbn. lra.
Qed.

(** On a non-empty array [argmin] returns the first index of the minimum. *)
Lemma argmin_spec (l : list Q) :
  l <> [] -> exists k, Np.argmin l = Ok k /\ first_min l k.
Proof.
  destruct l as [| x rest]; [congruence |]. intros _.
  eexists; split; [reflexivity |].
  exact (argmin_from_spec rest [x] 0%nat (first_min_singleton x)).
Qed.

(** ** The lookup on a valid trajectory *)

Lemma deltas_length (ts : list Q) (lap time : Q) :
  length (deltas ts lap time) = S (length ts).
Proof.
  unfold deltas, wrapped_times.
  rewrite length_map, length_app. cbn [length]. lia.
Qed.

Lemma deltas_nth (ts : list Q) (lap time : Q) (k : nat) :
  (k < S (length ts))%nat ->
  nth k (deltas ts lap time) 0
  = Qabs (nth k (wrapped_times ts lap) 0 - phase time lap).
Proof.
  intro Hk. unfold deltas.
  rewrite (nth_indep _ 0 (Qabs (0 - phase time lap)))
    by (rewrite length_map; unfold wrapped_times; rewrite length_app;
        cbn [length]; lia).
  apply (map_nth (fun w => Qabs (w - phase time lap))).
Qed.

Lemma distances_valid (T : Trajectory) (ts : list Q) (lap time : Q) :
  valid_with T ts lap -> distances T time = Ok (deltas ts lap time).
Proof.
  intros (Ht & Hlap & Ht2 & _ & _ & _ & _ & Hpos & _).
  unfold distances. rewrite Hlap. cbn [Py.mod_cell].
  rewrite (fmod_pos _ _ Hpos). cbn [bind].
  rewrite Ht2, Ht, Hlap.
  change (floats ts ++ [PyFloat lap]) with (floats ts ++ floats [lap]).
  unfold floats. rewrite <- map_app. fold (floats (ts ++ [lap])).
  rewrite sub_scalar_floats. cbn [bind].
  rewrite sqrt_power_map, map_map. reflexivity.
Qed.

Lemma getitem_nth (l : list Q) (i : nat) :
  (i < length l)%nat -> Np.getitem l i = Ok (nth i l 0).
Proof.
  intro Hi. unfold Np.getitem.
  rewrite (nth_error_nth' l 0 Hi). reflexivity.
Qed.

Lemma imod_mod (k n : nat) : (1 <= n)%nat -> Np.imod k n = Nat.modulo k n.
Proof. intro Hn. destruct n; [lia | reflexivity]. Qed.

(** On a valid trajectory the lookup returns: with [k] the first index of
    the least delta, the index [k mod N] and the delta stored at that
    index. *)
Lemma closest_point_time_valid (T : Trajectory) (ts : list Q) (lap time : Q) :
  valid_with T ts lap ->
  exists k,
    first_min (deltas ts lap time) k /\
    closest_point_time T time
    = Ok (nth (Nat.modulo k (length ts)) (deltas ts lap time) 0,
          Nat.modulo k (length ts)).
Proof.
  intro HV. pose proof (distances_valid T ts lap time HV) as Hd.
  destruct HV as (Ht & Hlap & Ht2 & HN & Hx & _ & _ & Hpos & _).
  destruct (argmin_spec (deltas ts lap time)) as (k & Hk & Hfm).
  { intro E. pose proof (deltas_length ts lap time) as L.
    rewrite E in L. discriminate L. }
  exists k. split; [exact Hfm |].
  unfold closest_point_time. rewrite Ht.
  destruct ts as [| t0 ts']; [cbn in HN; lia |].
  cbn [floats map Np.getitem nth_error bind is_None].
  rewrite Hd. cbn [bind]. rewrite Hk. cbn [bind].
  unfold size. rewrite Hx.
  rewrite imod_mod by exact HN.
  rewrite getitem_nth; [reflexivity |].
  rewrite deltas_length.
  pose proof (Nat.mod_upper_bound k (length (t0 :: ts'))). lia.
Qed.

(** ** Floor and phase *)

Lemma Qfloor_unique (x : Q) (z : Z) :
  inject_Z z <= x -> x < inject_Z (z + 1) -> Qfloor x = z.
Proof.
  intros Hlo Hhi.
  pose proof (Qfloor_le x) as Flo.
  pose proof (Qlt_floor x) as Fhi.
  assert (A : (z < Qfloor x + 1)%Z)
    by (rewrite Zlt_Qlt; eapply Qle_lt_trans; eassumption).
  assert (B : (Qfloor x < z + 1)%Z)
    by (rewrite Zlt_Qlt; eapply Qle_lt_trans; eassumption).
  lia.
Qed.

Lemma Qfloor_succ (x : Q) : Qfloor (x + 1) = (Qfloor x + 1)%Z.
Proof.
  pose proof (Qfloor_le x) as Flo.
  pose proof (Qlt_floor x) as Fhi.
  apply Qfloor_unique; rewrite !inject_Z_plus in *;
    change (inject_Z 1) with 1 in *; lra.
Qed.

(** Adding one lap does not change the phase. *)
Lemma phase_shift (time lap : Q) :
  0 < lap -> phase (time + lap) lap == phase time lap.
Proof.
  intro Hpos. unfold phase.
  assert (E : (time + lap) / lap == time / lap + 1) by (field; lra).
  rewrite E, Qfloor_succ, inject_Z_plus.
  change (inject_Z 1) with 1. ring.
Qed.

(** ** Construction from well-formed columns *)

Lemma Trajectory_init_valid (x y v : list cell) (ts : list Q) (lap : Q) :
  (1 <= length ts)%nat ->
  length x = length ts -> length y = length ts -> length v = length ts ->
  0 < lap -> nondecreasing ts -> hd 0 ts == 0 ->
  exists T,
    Trajectory_init x y (Some (floats ts)) v (PyFloat lap) = Ok T /\
    valid_with T ts lap.
Proof.
  intros. eexists; split; [reflexivity |].
  unfold valid_with; cbn. repeat split; assumption.
Qed.

(** ** Errors of the lookup *)

Lemma sub_scalar_raise (arr : list cell) (s : Q) (e : exn) :
  Np.sub_scalar arr s = Raise e -> e = TypeError.
Proof.
  induction arr as [| c arr IH]; cbn [Np.sub_scalar]; [discriminate |].
  destruct c; try (intro H; injection H as <-; reflexivity).
  destruct (Np.sub_scalar arr s) as [r | e']; cbn [bind]; [discriminate |].
  intro H; injection H as <-. apply IH. reflexivity.
Qed.

Lemma distances_raise (T : Trajectory) (time : Q) (e : exn) :
  distances T time = Raise e -> e = TypeError \/ e = ZeroDivisionError.
Proof.
  unfold distances, Py.mod_cell, Py.fmod.
  destruct (_lap_time T) as [| q | s]; cbn [bind];
    try (intro H; injection H as <-; left; reflexivity).
  destruct (Qcompare q 0); cbn [bind];
    try (intro H; injection H as <-; right; reflexivity);
    (destruct (Np.sub_scalar (_t2 T) _) as [r | e'] eqn:E; cbn [bind];
     [discriminate |
      intro H; injection H as <-; left; exact (sub_scalar_raise _ _ _ E)]).
Qed.

(** Past the timestamp check the lookup never raises the
    missing-timestamps error. *)
Lemma closest_point_time_past_check (T : Trajectory) (c : cell)
    (rest : list cell) (time : Q) :
  _t T = c :: rest -> is_None c = false ->
  closest_point_time T time <> Raise (ValueError lacks_timestamps).
Proof.
  intros Ht Hc. unfold closest_point_time.
  rewrite Ht. cbn [Np.getitem nth_error bind]. rewrite Hc.
  pose proof (distances_raise T time) as Hd.
  destruct (distances T time) as [ds | e]; cbn [bind].
  - destruct ds as [| d0 ds]; cbn [Np.argmin bind];
      [intro H; discriminate H |].
    unfold Np.getitem. destruct (nth_error _ _); cbn [bind];
      intro H; discriminate H.
  - intro H. injection H as ->.
    destruct (Hd _ eq_refl) as [E | E]; discriminate E.
Qed.

(** * Properties of the lookup *)

Lemma traj3_fast_valid : valid traj3_fast.
Proof.
  exists [0; 1; 2], 3. unfold valid_with; simpl.
  repeat split; try reflexivity; try lia; try lra.
Qed.

(** C1.  The lookup is claimed to return the least delta together with the
    aliased index, also when the least delta is at the sentinel index [N].
    On [times = [0, 1, 2]], [lap_duration = 3] and query time 2.9 the
    distances are least at the sentinel index 3, where the delta is 0.1;
    the code returns index 0 together with the distance stored at index 0,
    which is 2.9 and not 0.1. *)
Theorem C1_sentinel_delta_is_not_the_minimum :
  exists ds d,
    distances traj3 (29 # 10) = Ok ds /\
    first_min ds 3 /\ nth 3 ds 0 == 1 # 10 /\
    closest_point_time traj3 (29 # 10) = Ok (d, 0%nat) /\
    d == 29 # 10 /\ ~ d == 1 # 10.
Proof.
  do 2 eexists.
  split; [vm_compute; reflexivity |].
  split; [| split; [reflexivity | split; [vm_compute; reflexivity |]]].
  - unfold first_min. split; [cbn [length]; lia | split].
    + intros j Hj. cbn [length] in Hj.
      do 4 (destruct j as [| j]; [vm_compute; discriminate |]).
      lia.
    + intros j Hj.
      do 3 (destruct j as [| j]; [vm_compute; reflexivity |]).
      lia.
  - split; [reflexivity | discriminate].
Qed.



(** C9.  The velocities are not read by the lookup: two valid trajectories
    with the same times, the same lap duration and the same number of
    samples give the same result at every query time, whatever their
    velocities. *)
Theorem C9_velocities_not_consumed (T1 T2 : Trajectory) (time : Q) :
  valid T1 -> valid T2 ->
  _t T1 = _t T2 -> _lap_time T1 = _lap_time T2 -> size T1 = size T2 ->
  closest_point_time T1 time = closest_point_time T2 time.
Proof.
  intros (ts1 & lap1 & HV1) (ts2 & lap2 & HV2) Ht Hlap Hsize.
  destruct HV1 as (_ & _ & H1 & _). destruct HV2 as (_ & _ & H2 & _).
  unfold closest_point_time, distances.
  rewrite H1, H2, Ht, Hlap, Hsize. reflexivity.
Qed.

Lemma C9_velocities_not_consumed_witness :
  closest_point_time traj3 (14 # 10)
  = closest_point_time traj3_fast (14 # 10).
Proof.
  exact (C9_velocities_not_consumed traj3 traj3_fast (14 # 10)
           traj3_valid traj3_fast_valid eq_refl eq_refl eq_refl).
Defined.

(** * The timestamp check *)

(** C10.  Construction from a list of times raises nothing, whatever
    entries are missing; the lookup raises the missing-timestamps error if
    and only if the first stored time is [None].  In particular a list
    whose first time is present is never rejected by that check, whatever
    its later entries are. *)
Theorem C10_missing_timestamps_first_entry_only
    (x y t v : list cell) (lap_time : cell) :
  exists T,
    Trajectory_init x y (Some t) v lap_time = Ok T /\ _t T = t /\
    forall time,
      closest_point_time T time = Raise (ValueError lacks_timestamps)
      <-> nth_error t 0 = Some PyNone.
Proof.
  eexists. split; [reflexivity | split; [reflexivity |]].
  intro time. destruct t as [| c rest].
  - split; intro H; discriminate H.
  - destruct c as [| q | s].
    + split; reflexivity.
    + split; [| intro H; discriminate H].
      intro H. exfalso. revert H.
      eapply closest_point_time_past_check; reflexivity.
    + split; [| intro H; discriminate H].
      intro H. exfalso. revert H.
      eapply closest_point_time_past_check; reflexivity.
Qed.

(** A list of times whose first entry is present and whose second is
    missing passes the check; the lookup then fails on the subtraction. *)
Example later_missing_timestamp_is_a_type_error :
  closest_point_time
    {| _x := floats [0; 1]; _y := floats [0; 0];
       _t := [PyFloat 0; PyNone]; _t2 := [PyFloat 0; PyNone; PyFloat 3];
       _v := floats [5; 5]; _lap_time := PyFloat 3 |} (1 # 2)
  = Raise TypeError.
Proof. reflexivity. Qed.

(** * Construction *)

(** C2, the claim.  Columns that break every listed condition are
    accepted: no samples with a negative lap duration, and columns of
    three different lengths whose times decrease and do not start at 0. *)
Lemma C2_construction_accepts_invalid_columns :
  Trajectory_init [] [] (Some []) [] (PyFloat (-1))
  = Ok {| _x := []; _y := []; _t := []; _t2 := [PyFloat (-1)];
          _v := []; _lap_time := PyFloat (-1) |} /\
  Trajectory_init [PyFloat 0] [] (Some (floats [5; 1])) [] (PyFloat 0)
  = Ok {| _x := [PyFloat 0]; _y := []; _t := floats [5; 1];
          _t2 := floats [5; 1; 0]; _v := []; _lap_time := PyFloat 0 |}.
Proof. split; reflexivity. Qed.

(** * The node *)

(** C7, the claim.  A tick at the clock reading of 1 s, on a node started
    at that same reading: no time has elapsed, so the claimed index is 0,
    with position x = 0; the code looks the clock reading itself up and
    publishes the sample of index 1, with x = 1. *)
Lemma C7_lookup_uses_clock_not_elapsed_time :
  spec_tick_index traj3 1000000000 1000000000 = Ok 0%nat /\
  Np.getitem (_x traj3) 0 = Ok (PyFloat 0) /\
  loop node3 1000000000 []
  = Ok [ {| header_frame_id := "map"; header_stamp := 1000000000;
            position_x := PyFloat 1; position_y := PyFloat 0 |} ].
Proof. repeat split. Qed.

(** * Further properties of the lookup *)

Lemma sub_scalar_ok (arr : list cell) (s : Q) (r : list Q) :
  Np.sub_scalar arr s = Ok r ->
  exists ws, arr = floats ws /\ r = map (fun q => q - s) ws.
Proof.
  revert r. induction arr as [| c arr IH]; intros r; cbn [Np.sub_scalar].
  - intro H. injection H as <-. exists []. split; reflexivity.
  - destruct c as [| q | s0]; try (intro H; discriminate H).
    destruct (Np.sub_scalar arr s) as [r' | e]; cbn [bind];
      [| intro H; discriminate H].
    intro H. injection H as <-.
    destruct (IH r' eq_refl) as (ws & -> & ->).
    exists (q :: ws). split; reflexivity.
Qed.

Lemma fmod_nonzero (a b : Q) : ~ b == 0 -> Py.fmod a b = Ok (phase a b).
Proof.
  intro Hb. unfold Py.fmod.
  destruct (Qcompare b 0) eqn:E; try reflexivity.
  apply Qeq_alt in E. contradiction.
Qed.

Lemma fmod_zero (a b : Q) : b == 0 -> Py.fmod a b = Raise ZeroDivisionError.
Proof.
  intro Hb. unfold Py.fmod. apply Qeq_alt in Hb. rewrite Hb. reflexivity.
Qed.

Lemma imod_le (k n : nat) : (Np.imod k n <= k)%nat.
Proof.
  destruct n as [| n]; cbn [Np.imod]; [lia |].
  apply Nat.Div0.mod_le.
Qed.

Lemma imod_bound (k n : nat) :
  (Np.imod k n < n)%nat \/ (n = 0%nat /\ Np.imod k n = 0%nat).
Proof.
  destruct n as [| n]; [right; split; reflexivity | left].
  cbn [Np.imod]. apply Nat.mod_upper_bound. lia.
Qed.

(** The distances of any trajectory whose lap time is a non-zero float and
    whose wrapped times are floats. *)
Lemma distances_floats (T : Trajectory) (ws : list Q) (lap time : Q) :
  _lap_time T = PyFloat lap -> ~ lap == 0 -> _t2 T = floats ws ->
  distances T time
  = Ok (map (fun w => Qabs (w - phase time lap)) ws).
Proof.
  intros Hlap Hnz Ht2. unfold distances.
  rewrite Hlap. cbn [Py.mod_cell]. rewrite (fmod_nonzero _ _ Hnz).
  cbn [bind]. rewrite Ht2, sub_scalar_floats. cbn [bind].
  rewrite sqrt_power_map, map_map. reflexivity.
Qed.

Lemma distances_ok (T : Trajectory) (time : Q) (ds : list Q) :
  distances T time = Ok ds ->
  exists lap ws,
    _lap_time T = PyFloat lap /\ ~ lap == 0 /\ _t2 T = floats ws /\
    ds = map (fun w => Qabs (w - phase time lap)) ws.
Proof.
  unfold distances. destruct (_lap_time T) as [| lap | s] eqn:Hlap;
    cbn [Py.mod_cell bind]; try (intro H; discriminate H).
  destruct (Qeq_dec lap 0) as [Hz | Hnz].
  - rewrite (fmod_zero _ _ Hz). cbn [bind]. intro H; discriminate H.
  - rewrite (fmod_nonzero _ _ Hnz). cbn [bind].
    destruct (Np.sub_scalar (_t2 T) (phase time lap)) as [r |] eqn:E;
      cbn [bind]; [| intro H; discriminate H].
    intro H. injection H as <-.
    destruct (sub_scalar_ok _ _ _ E) as (ws & Hws & ->).
    exists lap, ws. rewrite sqrt_power_map, map_map.
    repeat split; assumption.
Qed.

(** What the lookup returns whenever it gets past the check and the
    distances exist: the index [argmin mod size] and the distance stored
    there. *)
Lemma closest_point_time_of_distances (T : Trajectory) (time : Q)
    (c : cell) (rest : list cell) (ds : list Q) :
  _t T = c :: rest -> is_None c = false ->
  distances T time = Ok ds -> ds <> [] ->
  exists k,
    first_min ds k /\
    closest_point_time T time
    = Ok (nth (Np.imod k (size T)) ds 0, Np.imod k (size T)).
Proof.
  intros Ht Hc Hd Hne.
  destruct (argmin_spec ds Hne) as (k & Hk & Hfm).
  exists k. split; [exact Hfm |].
  unfold closest_point_time. rewrite Ht.
  cbn [Np.getitem nth_error bind]. rewrite Hc, Hd. cbn [bind].
  rewrite Hk. cbn [bind].
  rewrite getitem_nth; [reflexivity |].
  pose proof (imod_le k (size T)). destruct Hfm as (Hlt & _). lia.
Qed.

Lemma floats_nil (ws : list Q) : floats ws = [] -> ws = [].
Proof. destruct ws; [reflexivity | intro H; discriminate H]. Qed.

(** The lookup returns a pair exactly when there is a first time and it is
    not [None], the lap time is a non-zero float, and the wrapped times are
    all floats.  The lengths of the position and velocity columns, the order
    of the times and the sign of the lap time play no role. *)
Theorem lookup_returns_iff (T : Trajectory) (time : Q) :
  (exists d i, closest_point_time T time = Ok (d, i)) <->
  (exists c rest, _t T = c :: rest /\ c <> PyNone) /\
  (exists lap, _lap_time T = PyFloat lap /\ ~ lap == 0) /\
  (exists w ws, _t2 T = floats (w :: ws)).
Proof.
  split.
  - intros (d & i & H). unfold closest_point_time in H.
    destruct (_t T) as [| c rest] eqn:Ht;
      cbn [Np.getitem nth_error bind] in H; [discriminate H |].
    destruct c as [| q | s]; cbn [is_None] in H; try discriminate H;
      (destruct (distances T time) as [ds |] eqn:Hd; cbn [bind] in H;
       [| discriminate H];
       destruct (distances_ok _ _ _ Hd) as (lap & ws & Hlap & Hnz & Ht2 & ->);
       destruct ws as [| w ws];
       [cbn [map Np.argmin bind] in H; discriminate H |];
       split; [do 2 eexists; split; [reflexivity | discriminate] |];
       split; [exists lap; split; assumption | exists w, ws; exact Ht2]).
  - intros ((c & rest & Ht & Hc) & (lap & Hlap & Hnz) & (w & ws & Ht2)).
    pose proof (distances_floats T (w :: ws) lap time Hlap Hnz Ht2) as Hd.
    assert (Hnone : is_None c = false)
      by (destruct c; [contradiction Hc; reflexivity | | ]; reflexivity).
    destruct (closest_point_time_of_distances T time c rest _ Ht Hnone Hd)
      as (k & _ & Hres); [discriminate |].
    do 2 eexists. exact Hres.
Qed.

Lemma sub_scalar_cases (arr : list cell) (s : Q) :
  (exists ws, arr = floats ws) \/
  (Np.sub_scalar arr s = Raise TypeError /\ forall ws, arr <> floats ws).
Proof.
  induction arr as [| c arr IH].
  - left. exists []. reflexivity.
  - destruct c as [| q | s0].
    + right. split; [reflexivity |]. intros [| w ws] H; discriminate H.
    + destruct IH as [(ws & ->) | (Hr & Hn)].
      * left. exists (q :: ws). reflexivity.
      * right. cbn [Np.sub_scalar]. rewrite Hr. split; [reflexivity |].
        intros [| w ws] H; [discriminate H |].
        injection H as _ H. exact (Hn ws H).
    + right. split; [reflexivity |]. intros [| w ws] H; discriminate H.
Qed.

(** The outcome of the lookup on any trajectory, by the first statement
    that decides it. *)
Lemma closest_point_time_cases (T : Trajectory) (time : Q) :
  (_t T = [] /\ closest_point_time T time = Raise IndexError) \/
  (exists rest, _t T = PyNone :: rest /\
     closest_point_time T time = Raise (ValueError lacks_timestamps)) \/
  (exists c rest, _t T = c :: rest /\ c <> PyNone /\
     ((forall lap, _lap_time T <> PyFloat lap) /\
      closest_point_time T time = Raise TypeError)) \/
  (exists c rest lap, _t T = c :: rest /\ c <> PyNone /\
     _lap_time T = PyFloat lap /\ lap == 0 /\
     closest_point_time T time = Raise ZeroDivisionError) \/
  (exists c rest lap, _t T = c :: rest /\ c <> PyNone /\
     _lap_time T = PyFloat lap /\ ~ lap == 0 /\
     (forall ws, _t2 T <> floats ws) /\
     closest_point_time T time = Raise TypeError) \/
  (exists c rest lap, _t T = c :: rest /\ c <> PyNone /\
     _lap_time T = PyFloat lap /\ ~ lap == 0 /\ _t2 T = [] /\
     exists msg, closest_point_time T time = Raise (ValueError msg) /\
                 msg <> lacks_timestamps) \/
  (exists c rest lap w ws, _t T = c :: rest /\ c <> PyNone /\
     _lap_time T = PyFloat lap /\ ~ lap == 0 /\ _t2 T = floats (w :: ws) /\
     exists d i, closest_point_time T time = Ok (d, i)).
Proof.
  destruct (_t T) as [| c rest] eqn:Ht.
  { left. split; [reflexivity |]. unfold closest_point_time.
    rewrite Ht. reflexivity. }
  right.
  destruct (is_None c) eqn:Hc.
  { left. destruct c; try discriminate Hc. exists rest.
    split; [reflexivity |]. unfold closest_point_time. rewrite Ht.
    reflexivity. }
  right.
  assert (Hc' : c <> PyNone) by (intros ->; discriminate Hc).
  assert (Hpast : forall r, (ds <- distances T time ;;
                       k <- Np.argmin ds ;;
                       d <- Np.getitem ds (Np.imod k (size T)) ;;
                       Ok (d, Np.imod k (size T))) = r ->
                      closest_point_time T time = r).
  { intros r <-. unfold closest_point_time. rewrite Ht.
    cbn [Np.getitem nth_error bind]. rewrite Hc. reflexivity. }
  destruct (_lap_time T) as [| lap | s] eqn:Hlap.
  - left. exists c, rest. repeat split; try assumption.
    + intros lap H; discriminate H.
    + apply Hpast. unfold distances. rewrite Hlap. reflexivity.
  - right.
    destruct (Qeq_dec lap 0) as [Hz | Hnz].
    { left. exists c, rest, lap. repeat split; try assumption.
      apply Hpast. unfold distances. rewrite Hlap. cbn [Py.mod_cell].
      rewrite (fmod_zero _ _ Hz). reflexivity. }
    right.
    destruct (sub_scalar_cases (_t2 T) (phase time lap))
      as [(ws & Hws) | (Hr & Hn)].
    + right. destruct ws as [| w ws].
      * left. exists c, rest, lap. repeat split; try assumption.
        eexists. split.
        -- apply Hpast.
           rewrite (distances_floats T [] lap time Hlap Hnz Hws).
           reflexivity.
        -- intro H; discriminate H.
      * right. exists c, rest, lap, w, ws. repeat split; try assumption.
        pose proof (distances_floats T (w :: ws) lap time Hlap Hnz Hws)
          as Hd.
        destruct (closest_point_time_of_distances T time c rest _
                    Ht Hc Hd) as (k & _ & Hres); [discriminate |].
        do 2 eexists. exact Hres.
    + left. exists c, rest, lap. repeat split; try assumption.
      apply Hpast. unfold distances. rewrite Hlap. cbn [Py.mod_cell].
      rewrite (fmod_nonzero _ _ Hnz). cbn [bind]. rewrite Hr. reflexivity.
  - left. exists c, rest. repeat split; try assumption.
    + intros lap H; discriminate H.
    + apply Hpast. unfold distances. rewrite Hlap. reflexivity.
Qed.

(** The two errors of the lookup that depend on the data alone: an
    [IndexError] exactly when there are no times at all, and a
    [ZeroDivisionError] exactly when the first time is present and the lap
    time is the float 0. *)
Theorem lookup_index_and_zero_division_errors (T : Trajectory) (time : Q) :
  (closest_point_time T time = Raise IndexError <-> _t T = []) /\
  (closest_point_time T time = Raise ZeroDivisionError <->
   (exists c rest, _t T = c :: rest /\ c <> PyNone) /\
   (exists lap, _lap_time T = PyFloat lap /\ lap == 0)).
Proof.
  pose proof (closest_point_time_cases T time) as H.
  split; split.
  - intro E. rewrite E in H.
    destruct H as [(H & _) | [(r & _ & H) | [(c & r & _ & _ & _ & H)
      | [(c & r & l & _ & _ & _ & _ & H) | [(c & r & l & _ & _ & _ & _ & _ & H)
      | [(c & r & l & _ & _ & _ & _ & _ & m & H & _)
      | (c & r & l & w & ws & _ & _ & _ & _ & _ & d & i & H)]]]]]];
      try discriminate H. exact H.
  - intro E. rewrite E in H.
    destruct H as [(_ & H) | [(r & H & _) | [(c & r & H & _)
      | [(c & r & l & H & _) | [(c & r & l & H & _)
      | [(c & r & l & H & _) | (c & r & l & w & ws & H & _)]]]]]];
      try discriminate H. exact H.
  - intro E. rewrite E in H.
    destruct H as [(_ & H) | [(r & _ & H) | [(c & r & _ & _ & _ & H)
      | [(c & r & l & Ht & Hc & Hl & Hz & _)
      | [(c & r & l & _ & _ & _ & _ & _ & H)
      | [(c & r & l & _ & _ & _ & _ & _ & m & H & _)
      | (c & r & l & w & ws & _ & _ & _ & _ & _ & d & i & H)]]]]]];
      try discriminate H.
    split; [exists c, r; split; assumption | exists l; split; assumption].
  - intros ((c0 & r0 & Ht0 & Hc0) & (l0 & Hl0 & Hz0)).
    destruct H as [(H & _) | [(r & H & _) | [(c & r & _ & _ & Hn & _)
      | [(c & r & l & _ & _ & _ & _ & H)
      | [(c & r & l & _ & _ & Hl & Hnz & _)
      | [(c & r & l & _ & _ & Hl & Hnz & _)
      | (c & r & l & w & ws & _ & _ & Hl & Hnz & _)]]]]]].
    + rewrite Ht0 in H; discriminate H.
    + rewrite Ht0 in H. injection H as -> _. contradiction Hc0; reflexivity.
    + contradiction (Hn l0 Hl0).
    + exact H.
    + rewrite Hl0 in Hl. injection Hl as <-. contradiction.
    + rewrite Hl0 in Hl. injection Hl as <-. contradiction.
    + rewrite Hl0 in Hl. injection Hl as <-. contradiction.
Qed.



(** * Reading the file *)

(** ** Dicts *)

Section DictLemmas.

Context {V : Type}.
Implicit Types (d : list (string * V)) (k key : string) (v : V).

Lemma dict_get_set_same key v d : dict_get key (dict_set key v d) = Some v.
Proof.
  induction d as [| [k w] d IH]; cbn [dict_set dict_get].
  - rewrite String.eqb_refl. reflexivity.
  - destruct (String.eqb k key) eqn:E; cbn [dict_get]; rewrite E;
      [reflexivity | exact IH].
Qed.

Lemma dict_get_set_other key k v d :
  key <> k -> dict_get k (dict_set key v d) = dict_get k d.
Proof.
  intro Hne. induction d as [| [k' w] d IH]; cbn [dict_set dict_get].
  - apply String.eqb_neq in Hne. rewrite Hne. reflexivity.
  - destruct (String.eqb k' key) eqn:E; cbn [dict_get].
    + apply String.eqb_eq in E. subst k'.
      apply String.eqb_neq in Hne. rewrite Hne. reflexivity.
    + rewrite IH. reflexivity.
Qed.

Lemma dict_get_None key d : dict_get key d = None <-> ~ In key (map fst d).
Proof.
  induction d as [| [k w] d IH]; cbn [dict_get map fst In].
  - tauto.
  - destruct (String.eqb k key) eqn:E.
    + apply String.eqb_eq in E. split; [intro H; discriminate H | tauto].
    + apply String.eqb_neq in E. tauto.
Qed.

Lemma dict_get_In key v d : dict_get key d = Some v -> In (key, v) d.
Proof.
  induction d as [| [k w] d IH]; cbn [dict_get]; [intro H; discriminate H |].
  destruct (String.eqb k key) eqn:E.
  - apply String.eqb_eq in E. intro H. injection H as <-. subst k.
    left. reflexivity.
  - intro H. right. exact (IH H).
Qed.

Lemma dict_set_keys_present key v d :
  In key (map fst d) -> map fst (dict_set key v d) = map fst d.
Proof.
  induction d as [| [k w] d IH]; cbn [dict_set map fst In]; [tauto |].
  intro H. destruct (String.eqb k key) eqn:E; cbn [map fst];
    [reflexivity |].
  apply String.eqb_neq in E. f_equal. apply IH. tauto.
Qed.

Lemma dict_set_absent key v d :
  ~ In key (map fst d) -> dict_set key v d = d ++ [(key, v)].
Proof.
  induction d as [| [k w] d IH]; cbn [dict_set map fst In app];
    [reflexivity |].
  intro H. destruct (String.eqb k key) eqn:E.
  - apply String.eqb_eq in E. tauto.
  - f_equal. apply IH. tauto.
Qed.

Lemma dict_set_keys_incl key v d k :
  In k (map fst (dict_set key v d)) <-> k = key \/ In k (map fst d).
Proof.
  induction d as [| [k' w] d IH]; cbn [dict_set map fst In].
  - intuition auto.
  - destruct (String.eqb k' key) eqn:E; cbn [map fst In].
    + apply String.eqb_eq in E. subst k'. intuition auto.
    + rewrite IH. intuition auto.
Qed.

Lemma dict_set_values (P : V -> Prop) key v d :
  P v -> Forall (fun kv => P (snd kv)) d ->
  Forall (fun kv => P (snd kv)) (dict_set key v d).
Proof.
  intros Hv. induction d as [| [k w] d IH]; cbn [dict_set]; intro H.
  - constructor; [exact Hv | constructor].
  - inversion H as [| ? ? Hw Hd]; subst.
    destruct (String.eqb k key); constructor; auto.
Qed.

(** Building a dict from pairs with distinct keys keeps the pairs. *)
Lemma fold_dict_set_fresh (pairs : list (string * V)) d :
  NoDup (map fst (d ++ pairs)) ->
  fold_left (fun d kv => dict_set (fst kv) (snd kv) d) pairs d = d ++ pairs.
Proof.
  revert d. induction pairs as [| [k v] pairs IH]; intros d Hnd;
    cbn [fold_left fst snd].
  - rewrite app_nil_r. reflexivity.
  - rewrite dict_set_absent.
    + rewrite IH; rewrite <- app_assoc; [reflexivity | exact Hnd].
    + rewrite map_app in Hnd. cbn [map fst] in Hnd.
      apply NoDup_remove_2 in Hnd. intro H. apply Hnd.
      apply in_or_app. left. exact H.
Qed.

Lemma dict_of_pairs_fresh (pairs : list (string * V)) :
  NoDup (map fst pairs) -> dict_of_pairs pairs = pairs.
Proof. intro H. exact (fold_dict_set_fresh pairs [] H). Qed.

Lemma fold_dict_set_keys (pairs : list (string * V)) d k :
  In k (map fst
          (fold_left (fun d kv => dict_set (fst kv) (snd kv) d) pairs d))
  <-> In k (map fst d) \/ In k (map fst pairs).
Proof.
  revert d. induction pairs as [| [k' v] pairs IH]; intro d;
    cbn [fold_left map fst snd In].
  - tauto.
  - rewrite IH, dict_set_keys_incl. intuition auto.
Qed.

Lemma fold_dict_set_values (P : V -> Prop) (pairs : list (string * V)) d :
  Forall (fun kv => P (snd kv)) pairs ->
  Forall (fun kv => P (snd kv)) d ->
  Forall (fun kv => P (snd kv))
         (fold_left (fun d kv => dict_set (fst kv) (snd kv) d) pairs d).
Proof.
  revert d. induction pairs as [| [k v] pairs IH]; intros d Hp Hd;
    cbn [fold_left fst snd]; [exact Hd |].
  inversion Hp as [| ? ? Hv Hps]; subst. apply IH; [exact Hps |].
  apply dict_set_values; assumption.
Qed.

End DictLemmas.

(** ** Row dicts *)

Lemma in_skipn_in {A : Type} (n : nat) (l : list A) (a : A) :
  In a (skipn n l) -> In a l.
Proof.
  intro H. rewrite <- (firstn_skipn n l). apply in_or_app. right. exact H.
Qed.

Lemma zip_fields_are_fields (fieldnames row : list string) :
  Forall is_field (combine fieldnames (map CsvStr row)).
Proof.
  apply Forall_forall. intros [k v] Hin.
  apply in_combine_r, in_map_iff in Hin. destruct Hin as (s & <- & _).
  exists s. reflexivity.
Qed.

Lemma zip_keys (fieldnames : list string) (vals : list csv_value)
    (k : string) :
  In k (map fst (combine fieldnames vals)) -> In k fieldnames.
Proof.
  intro H. apply in_map_iff in H. destruct H as ([k' v] & <- & Hin).
  exact (in_combine_l _ _ _ _ Hin).
Qed.

Lemma fill_none_keys (ks : list string) (d : list (string * csv_value))
    (k : string) :
  In k (map fst (fold_left (fun d key => dict_set key CsvNone d) ks d))
  <-> In k (map fst d) \/ In k ks.
Proof.
  revert d. induction ks as [| k' ks IH]; intro d; cbn [fold_left In].
  - tauto.
  - rewrite IH, dict_set_keys_incl. intuition auto.
Qed.

Lemma fill_none_has_none (ks : list string) (d : list (string * csv_value)) :
  ks <> [] ->
  Exists (fun kv => snd kv = CsvNone)
         (fold_left (fun d key => dict_set key CsvNone d) ks d).
Proof.
  revert d. induction ks as [| k ks IH]; intros d Hne; [congruence |].
  cbn [fold_left]. destruct ks as [| k' ks'].
  - cbn [fold_left]. apply Exists_exists. exists (k, CsvNone).
    split; [| reflexivity].
    apply dict_get_In, dict_get_set_same.
  - apply IH. discriminate.
Qed.

(** The row dict of a full row. *)
Lemma DictReader_next_full (fieldnames row : list string) :
  length row = length fieldnames ->
  DictReader_next fieldnames row
  = {| line_items := dict_of_pairs (combine fieldnames (map CsvStr row));
       line_rest := None |}.
Proof.
  intro H. unfold DictReader_next. rewrite H, Nat.ltb_irrefl. reflexivity.
Qed.

Lemma zip_get (fieldnames : list string) :
  NoDup fieldnames ->
  forall (row : list string) (i : nat) (f : string),
    length row = length fieldnames ->
    nth_error fieldnames i = Some f ->
    dict_get f (combine fieldnames (map CsvStr row))
    = Some (CsvStr (nth i row EmptyString)).
Proof.
  induction fieldnames as [| k ks IH]; intros Hnd row i f Hlen Hi.
  - destruct i; discriminate Hi.
  - destruct row as [| s row]; [discriminate Hlen |].
    inversion Hnd as [| ? ? Hk Hks]; subst.
    cbn [map combine dict_get]. destruct i as [| i]; cbn [nth_error nth] in *.
    + injection Hi as ->. rewrite String.eqb_refl. reflexivity.
    + assert (Hne : k <> f)
        by (intros ->; apply Hk; eapply nth_error_In; exact Hi).
      apply String.eqb_neq in Hne. rewrite Hne.
      apply IH; [exact Hks | cbn in Hlen; lia | exact Hi].
Qed.

Lemma zip_keys_full (fieldnames row : list string) :
  length row = length fieldnames ->
  map fst (combine fieldnames (map CsvStr row)) = fieldnames.
Proof.
  revert row. induction fieldnames as [| k ks IH]; intros row Hlen.
  - reflexivity.
  - destruct row as [| s row]; [discriminate Hlen |].
    cbn [map combine fst]. f_equal. apply IH. cbn in Hlen; lia.
Qed.

(** ** The loops of read_csv *)

Section ReadCsvLemmas.

Variable float_of_string : string -> option Q.

Lemma option_map_app_nil (o : option (list cell)) :
  option_map (fun col => col ++ []) o = o.
Proof. destruct o; cbn; [rewrite app_nil_r |]; reflexivity. Qed.

(** The items of a row dict whose values are all fields: each key gets the
    cell of its field appended, no key is added. *)
Lemma read_items_fields (items : list (string * csv_value)) :
  forall data : table,
    Forall is_field items ->
    (forall k, In k (map fst items) -> In k (map fst data)) ->
    exists data',
      read_items float_of_string data items = Return data' /\
      map fst data' = map fst data /\
      (NoDup (map fst items) ->
       forall k,
         dict_get k data'
         = match dict_get k items with
           | Some (CsvStr s) =>
               option_map (fun col => col ++ [field_cell float_of_string s]) (dict_get k data)
           | _ => dict_get k data
           end).
Proof.
  induction items as [| [key value] items IH]; intros data Hf Hk.
  - exists data. repeat split. 
  - inversion Hf as [| ? ? (s & Hs) Hf']; subst. cbn [snd] in Hs. subst value.
    assert (Hin : In key (map fst data)) by (apply Hk; left; reflexivity).
    destruct (dict_get key data) as [col |] eqn:Hcol;
      [| apply dict_get_None in Hcol; contradiction].
    set (data1 := dict_set key (col ++ [field_cell float_of_string s]) data).
    assert (Hkeys1 : map fst data1 = map fst data)
      by (apply dict_set_keys_present; exact Hin).
    destruct (IH data1 Hf') as (data' & Hrun & Hkeys & Hcontent).
    { intros k Hk'. rewrite Hkeys1. apply Hk. right. exact Hk'. }
    exists data'. split; [| split].
    + cbn [read_items float_or_keep]. unfold field_cell in *.
      destruct (float_of_string s); cbn [obind]; unfold append, dict_getitem;
        rewrite Hcol; cbn [obind]; exact Hrun.
    + rewrite Hkeys. exact Hkeys1.
    + intros Hnd k. cbn [map fst] in Hnd.
      inversion Hnd as [| ? ? Hfresh Hnd']; subst.
      rewrite (Hcontent Hnd' k). cbn [dict_get].
      destruct (String.eqb key k) eqn:E.
      * apply String.eqb_eq in E. subst k.
        assert (Hno : dict_get key items = None)
          by (apply dict_get_None; exact Hfresh).
        rewrite Hno. unfold data1. rewrite dict_get_set_same, Hcol.
        reflexivity.
      * apply String.eqb_neq in E. unfold data1.
        rewrite (dict_get_set_other _ _ _ _ E). reflexivity.
Qed.

(** A [None] among the values makes the loop raise a [TypeError]. *)
Lemma read_items_none (items : list (string * csv_value)) :
  forall data : table,
    Exists (fun kv => snd kv = CsvNone) items ->
    (forall k, In k (map fst items) -> In k (map fst data)) ->
    read_items float_of_string data items = Throw (Builtin TypeError).
Proof.
  induction items as [| [key value] items IH]; intros data Hex Hk.
  - inversion Hex.
  - destruct value as [s |]; [| reflexivity].
    inversion Hex as [? ? Hhd | ? ? Htl]; subst; [discriminate Hhd |].
    assert (Hin : In key (map fst data)) by (apply Hk; left; reflexivity).
    destruct (dict_get key data) as [col |] eqn:Hcol;
      [| apply dict_get_None in Hcol; contradiction].
    cbn [read_items float_or_keep].
    destruct (float_of_string s); cbn [obind]; unfold append, dict_getitem;
      rewrite Hcol; cbn [obind]; apply IH; try exact Htl;
      intros k Hk'; rewrite dict_set_keys_present by exact Hin;
      apply Hk; right; exact Hk'.
Qed.

Lemma option_map_snoc_app (o : option (list cell)) (c : cell)
    (rest : list cell) :
  option_map (fun col => col ++ rest)
             (option_map (fun col => col ++ [c]) o)
  = option_map (fun col => col ++ c :: rest) o.
Proof.
  destruct o as [col |]; cbn; [| reflexivity].
  rewrite <- app_assoc. reflexivity.
Qed.

(** The outer loop: either all rows are blank or full, the loop returns and
    has appended to each column the cells of its fields, or some row is
    not and the loop raises a [TypeError]. *)
Lemma read_rows_outcome (fieldnames : list string)
    (rows : list (list string)) :
  forall data : table,
    (forall f, In f fieldnames -> In f (map fst data)) ->
    (Forall (full_or_blank fieldnames) rows /\
     exists data',
       read_rows float_of_string fieldnames data rows = Return data' /\
       map fst data' = map fst data /\
       (NoDup fieldnames ->
        forall i f, nth_error fieldnames i = Some f ->
          dict_get f data'
          = option_map
              (fun col => col ++ map (field_cell float_of_string) (column i (data_rows rows)))
              (dict_get f data)))
    \/
    (~ Forall (full_or_blank fieldnames) rows /\
     read_rows float_of_string fieldnames data rows
     = Throw (Builtin TypeError)).
Proof.
  induction rows as [| row rows IH]; intros data Hkeys.
  - left. split; [constructor |]. exists data.
    repeat split. intros _ i f _. cbn. symmetry. apply option_map_app_nil.
  - destruct row as [| s0 row0].
    + destruct (IH data Hkeys)
        as [(Hall & data' & Hrun & Hk & Hc) | (Hnot & Hrun)].
      * left. split; [constructor; [left; reflexivity | exact Hall] |].
        exists data'. repeat split; assumption.
      * right. split; [| exact Hrun].
        intro H. inversion H; subst. contradiction.
    + change (read_rows float_of_string fieldnames data
                        ((s0 :: row0) :: rows))
        with (data' <-- read_line float_of_string data
                          (DictReader_next fieldnames (s0 :: row0)) ;;
              read_rows float_of_string fieldnames data' rows).
      change (data_rows ((s0 :: row0) :: rows))
        with ((s0 :: row0) :: data_rows rows).
      assert (Hnb : s0 :: row0 <> []) by discriminate.
      remember (s0 :: row0) as row eqn:Hrow. clear Hrow.
      assert (Hzipkeys : forall k,
                In k (map fst (dict_of_pairs
                                 (combine fieldnames (map CsvStr row)))) ->
                In k fieldnames).
      { intros k Hin. unfold dict_of_pairs in Hin.
        apply fold_dict_set_keys in Hin.
        destruct Hin as [[] | Hin]. exact (zip_keys _ _ _ Hin). }
      assert (Hzipfields : Forall is_field
                (dict_of_pairs (combine fieldnames (map CsvStr row)))).
      { unfold dict_of_pairs.
        apply (fold_dict_set_values (fun v => exists s, v = CsvStr s));
          [apply zip_fields_are_fields | constructor]. }
      assert (Hbad : length row <> length fieldnames ->
                ~ Forall (full_or_blank fieldnames) (row :: rows)).
      { intros Hne H. inversion H as [| ? ? [Hb | Hl] _]; subst;
          contradiction. }
      destruct (Nat.lt_trichotomy (length row) (length fieldnames))
        as [Hshort | [Hfull | Hlong]].
      * right. split; [apply Hbad; lia |].
        unfold DictReader_next, read_line.
        replace (length fieldnames <? length row)%nat with false
          by (symmetry; apply Nat.ltb_ge; lia).
        replace (length row <? length fieldnames)%nat with true
          by (symmetry; apply Nat.ltb_lt; lia).
        cbn [line_items line_rest]. rewrite read_items_none;
          [reflexivity | |].
        -- apply fill_none_has_none. intro E.
           apply (f_equal (@length string)) in E.
           rewrite length_skipn in E. cbn [length] in E. lia.
        -- intros k Hin. apply Hkeys. apply fill_none_keys in Hin.
           destruct Hin as [Hin | Hin];
             [exact (Hzipkeys k Hin) | exact (in_skipn_in _ _ _ Hin)].
      * rewrite (DictReader_next_full _ _ Hfull). unfold read_line.
        cbn [line_items line_rest].
        destruct (read_items_fields _ data Hzipfields)
          as (data1 & Hrun1 & Hk1 & Hc1).
        { intros k Hin. apply Hkeys, Hzipkeys, Hin. }
        rewrite Hrun1. cbn [obind].
        destruct (IH data1) as [(Hall & data' & Hrun & Hk & Hc) | (Hnot & Hrun)].
        { intros f Hf. rewrite Hk1. apply Hkeys, Hf. }
        -- left. split; [constructor; [right; exact Hfull | exact Hall] |].
           exists data'. split; [exact Hrun | split].
           ++ rewrite Hk. exact Hk1.
           ++ intros Hnd i f Hi. rewrite (Hc Hnd i f Hi).
              assert (Hfresh : dict_of_pairs
                                 (combine fieldnames (map CsvStr row))
                               = combine fieldnames (map CsvStr row)).
              { apply dict_of_pairs_fresh.
                rewrite (zip_keys_full _ _ Hfull). exact Hnd. }
              rewrite Hc1
                by (rewrite Hfresh, (zip_keys_full _ _ Hfull); exact Hnd).
              rewrite Hfresh, (zip_get fieldnames Hnd row i f Hfull Hi).
              cbn [column map]. apply option_map_snoc_app.
        -- right. split; [| exact Hrun].
           intro H. inversion H; subst. contradiction.
      * right. split; [apply Hbad; lia |].
        unfold DictReader_next, read_line.
        replace (length fieldnames <? length row)%nat with true
          by (symmetry; apply Nat.ltb_lt; lia).
        cbn [line_items line_rest].
        destruct (read_items_fields _ data Hzipfields)
          as (data1 & Hrun1 & _).
        { intros k Hin. apply Hkeys, Hzipkeys, Hin. }
        rewrite Hrun1. reflexivity.
Qed.

End ReadCsvLemmas.

Lemma empty_columns_keys (fieldnames : list string) (f : string) :
  In f fieldnames ->
  In f (map fst (dict_of_pairs
                   (map (fun field => (field, @nil cell)) fieldnames))).
Proof.
  intro H. unfold dict_of_pairs. apply fold_dict_set_keys. right.
  rewrite map_map. cbn [fst]. rewrite map_id. exact H.
Qed.

Lemma empty_columns_fresh (fieldnames : list string) :
  NoDup fieldnames ->
  dict_of_pairs (map (fun field => (field, @nil cell)) fieldnames)
  = map (fun field => (field, @nil cell)) fieldnames.
Proof.
  intro H. apply dict_of_pairs_fresh.
  rewrite map_map. cbn [fst]. rewrite map_id. exact H.
Qed.

Lemma empty_columns_get (fieldnames : list string) (f : string) :
  In f fieldnames ->
  dict_get f (map (fun field => (field, @nil cell)) fieldnames) = Some [].
Proof.
  induction fieldnames as [| k ks IH]; intro H; [contradiction |].
  cbn [map dict_get]. destruct (String.eqb k f) eqn:E; [reflexivity |].
  apply String.eqb_neq in E. destruct H as [H | H]; [contradiction |].
  exact (IH H).
Qed.

Lemma read_csv_full (float_of_string : string -> option Q)
    (fieldnames : list string) (rows : list (list string)) :
  NoDup fieldnames ->
  Forall (full_or_blank fieldnames) rows ->
  exists data,
    read_csv float_of_string (fieldnames :: rows) = Return data /\
    map fst data = fieldnames /\
    forall i f, nth_error fieldnames i = Some f ->
      dict_get f data
      = Some (map (field_cell float_of_string)
                  (column i (data_rows rows))).
Proof.
  intros Hnd Hshape. cbn [read_csv].
  destruct (read_rows_outcome float_of_string fieldnames rows
              (dict_of_pairs (map (fun field => (field, [])) fieldnames))
              (empty_columns_keys fieldnames))
    as [(_ & data & Hrun & Hkeys & Hcontent) | (Hnot & _)];
    [| contradiction].
  exists data. split; [exact Hrun | split].
  - rewrite Hkeys, (empty_columns_fresh _ Hnd), map_map. cbn [fst].
    apply map_id.
  - intros i f Hi. rewrite (Hcontent Hnd i f Hi).
    rewrite (empty_columns_fresh _ Hnd).
    rewrite (empty_columns_get _ _ (nth_error_In _ _ Hi)). reflexivity.
Qed.

(** [read_csv] transposes the file.  With distinct field names and rows
    that are all blank or full, it returns a dict whose keys are the field
    names, in order; the column of a field lists, row after row and
    skipping the blank rows, the cell of that field: its number when
    [float] accepts it, the field itself otherwise. *)
Theorem read_csv_columns (float_of_string : string -> option Q)
    (fieldnames : list string) (rows : list (list string)) :
  NoDup fieldnames ->
  Forall (full_or_blank fieldnames) rows ->
  exists data,
    read_csv float_of_string (fieldnames :: rows) = Return data /\
    map fst data = fieldnames /\
    forall i f, nth_error fieldnames i = Some f ->
      dict_get f data
      = Some (map (field_cell float_of_string)
                  (column i (data_rows rows))).
Proof. exact (read_csv_full float_of_string fieldnames rows). Qed.

Lemma file3_shape :
  NoDup (hd [] file3) /\ Forall (full_or_blank (hd [] file3)) (tl file3).
Proof.
  split.
  - repeat constructor; cbn [In]; intuition discriminate.
  - repeat constructor; (left; reflexivity) || (right; reflexivity).
Qed.

Lemma read_csv_columns_witness :
  exists data,
    read_csv digits_float file3 = Return data /\
    map fst data = hd [] file3 /\
    forall i f, nth_error (hd [] file3) i = Some f ->
      dict_get f data
      = Some (map (field_cell digits_float)
                  (column i (data_rows (tl file3)))).
Proof.
  exact (read_csv_columns digits_float (hd [] file3) (tl file3)
           (proj1 file3_shape) (proj2 file3_shape)).
Defined.

(** [read_csv] returns exactly on the files that have a header and whose
    rows are all blank or full, whatever the field names and the fields
    are.  On every other file, an empty one or one with a row shorter or
    longer than the header, it raises a [TypeError]; it raises nothing
    else. *)
Theorem read_csv_returns_iff_well_shaped
    (float_of_string : string -> option Q) (reader : list (list string)) :
  (well_shaped reader ->
   exists data, read_csv float_of_string reader = Return data) /\
  (~ well_shaped reader ->
   read_csv float_of_string reader = Throw (Builtin TypeError)).
Proof.
  destruct reader as [| fieldnames rows]; cbn [well_shaped read_csv].
  - split; [contradiction | reflexivity].
  - destruct (read_rows_outcome float_of_string fieldnames rows
                (dict_of_pairs (map (fun field => (field, [])) fieldnames))
                (empty_columns_keys fieldnames))
      as [(Hall & data & Hrun & _) | (Hnot & Hrun)].
    + split; [intros _; exists data; exact Hrun | contradiction].
    + split; [contradiction | intros _; exact Hrun].
Qed.

Lemma read_csv_returns_iff_well_shaped_witness :
  (exists data, read_csv digits_float file3 = Return data) /\
  read_csv digits_float [["t_s"; "x_m"]; ["3"]]%string
  = Throw (Builtin TypeError).
Proof.
  split.
  - apply (proj1 (read_csv_returns_iff_well_shaped digits_float file3)).
    exact (proj2 file3_shape).
  - apply (proj2 (read_csv_returns_iff_well_shaped digits_float
                    [["t_s"; "x_m"]; ["3"]]%string)).
    cbn [well_shaped]. intro H. inversion H as [| ? ? [Hb | Hl] _]; subst;
      discriminate.
Defined.

(** * The main script *)

Lemma main_trajectory_columns (data : table) (x y v rest : list cell)
    (c0 : cell) :
  dict_get "x_m" data = Some x -> dict_get "y_m" data = Some y ->
  dict_get "v_mps" data = Some v -> dict_get "t_s" data = Some (c0 :: rest) ->
  main_trajectory data
  = Return {| _x := x; _y := y; _t := PyFloat 0 :: rest;
              _t2 := (PyFloat 0 :: rest) ++ [c0]; _v := v;
              _lap_time := c0 |}.
Proof.
  intros Hx Hy Hv Ht. unfold main_trajectory, dict_getitem.
  rewrite Ht. cbn [obind lift Np.getitem nth_error tl].
  rewrite !dict_get_set_other by discriminate.
  rewrite dict_get_set_same, Hx, Hy, Hv. reflexivity.
Qed.

Lemma main_trajectory_valid_columns (data : table) (x y v : list cell)
    (lap : Q) (later : list Q) :
  dict_get "x_m" data = Some x -> dict_get "y_m" data = Some y ->
  dict_get "v_mps" data = Some v ->
  dict_get "t_s" data = Some (floats (lap :: later)) ->
  length x = S (length later) -> length y = S (length later) ->
  length v = S (length later) ->
  0 < lap -> nondecreasing (0 :: later) ->
  exists T,
    main_trajectory data = Return T /\ valid_with T (0 :: later) lap /\
    _x T = x /\ _y T = y /\ _v T = v.
Proof.
  intros Hx Hy Hv Ht Lx Ly Lv Hpos Hsorted.
  eexists. split.
  - exact (main_trajectory_columns data x y v (floats later) (PyFloat lap)
             Hx Hy Hv Ht).
  - split; [| repeat split].
    unfold valid_with. cbn [_t _t2 _x _y _v _lap_time length hd].
    repeat split; try assumption; try reflexivity; lia.
Qed.

(** A file whose column [t_s] starts with 0, as a plain time column does,
    cannot be replayed: the script builds the trajectory with the lap time
    0, and every lookup raises a [ZeroDivisionError]. *)
Theorem main_zero_first_t_never_replays (data : table)
    (x y v rest : list cell) (t0 time : Q) :
  dict_get "x_m" data = Some x -> dict_get "y_m" data = Some y ->
  dict_get "v_mps" data = Some v ->
  dict_get "t_s" data = Some (PyFloat t0 :: rest) -> t0 == 0 ->
  exists T,
    main_trajectory data = Return T /\
    closest_point_time T time = Raise ZeroDivisionError.
Proof.
  intros Hx Hy Hv Ht Hz. eexists. split.
  - exact (main_trajectory_columns data x y v rest (PyFloat t0)
             Hx Hy Hv Ht).
  - unfold closest_point_time, distances.
    cbn [_t _lap_time Np.getitem nth_error bind is_None Py.mod_cell].
    rewrite (fmod_zero _ _ Hz). reflexivity.
Qed.

Lemma main_zero_first_t_never_replays_witness :
  exists T,
    main_trajectory data_from_zero = Return T /\
    closest_point_time T (1 # 2) = Raise ZeroDivisionError.
Proof.
  exact (main_zero_first_t_never_replays data_from_zero
           (floats [0; 1; 2]) (floats [0; 0; 0]) (floats [5; 5; 5])
           (floats [1; 2]) 0 (1 # 2) eq_refl eq_refl eq_refl eq_refl
           (Qeq_refl 0)).
Defined.

(** ** From the file to the trajectory *)

Lemma read_rows_blank (float_of_string : string -> option Q)
    (fieldnames : list string) (data : table) (rows : list (list string)) :
  Forall (fun row => row = []) rows ->
  read_rows float_of_string fieldnames data rows = Return data.
Proof.
  induction rows as [| row rows IH]; intro H; [reflexivity |].
  inversion H as [| ? ? Hrow Hrows]; subst. cbn [read_rows]. exact (IH Hrows).
Qed.

Lemma empty_columns_get_any (fieldnames : list string) (f : string) :
  dict_get f (dict_of_pairs
                (map (fun field => (field, @nil cell)) fieldnames))
  = if in_dec string_dec f fieldnames then Some [] else None.
Proof.
  destruct (in_dec string_dec f fieldnames) as [Hin | Hout].
  - pose proof (empty_columns_keys fieldnames f Hin) as Hk.
    destruct (dict_get f _) as [col |] eqn:E;
      [| apply dict_get_None in E; contradiction].
    apply dict_get_In in E.
    assert (Hall : Forall (fun kv : string * list cell => snd kv = [])
              (dict_of_pairs
                 (map (fun field => (field, @nil cell)) fieldnames))).
    { unfold dict_of_pairs.
      apply (fold_dict_set_values (fun v : list cell => v = []));
        [| constructor].
      apply Forall_forall. intros kv Hkv. apply in_map_iff in Hkv.
      destruct Hkv as (k & <- & _). reflexivity. }
    rewrite Forall_forall in Hall. specialize (Hall _ E). cbn in Hall.
    subst col. reflexivity.
  - apply dict_get_None. intro H. apply Hout.
    unfold dict_of_pairs in H. apply fold_dict_set_keys in H.
    destruct H as [[] | H]. rewrite map_map in H. cbn [fst] in H.
    rewrite map_id in H. exact H.
Qed.

(** A file with a header and no row of data stops the script before the
    trajectory is built: with an [IndexError] on the first entry of [t_s]
    when the header has that field, with a [KeyError] when it has not. *)
Theorem main_without_data_rows (float_of_string : string -> option Q)
    (fieldnames : list string) (rows : list (list string)) :
  Forall (fun row => row = []) rows ->
  main float_of_string (fieldnames :: rows)
  = if in_dec string_dec "t_s"%string fieldnames
    then Throw (Builtin IndexError)
    else Throw (KeyError "t_s").
Proof.
  intro Hblank. unfold main. cbn [read_csv].
  rewrite (read_rows_blank _ _ _ _ Hblank). cbn [obind].
  unfold main_trajectory, dict_getitem.
  rewrite empty_columns_get_any.
  destruct (in_dec string_dec "t_s"%string fieldnames); reflexivity.
Qed.

Lemma main_without_data_rows_witness :
  main digits_float [["t_s"; "x_m"; "y_m"; "v_mps"]; []]%string
  = Throw (Builtin IndexError).
Proof.
  exact (main_without_data_rows digits_float
           ["t_s"; "x_m"; "y_m"; "v_mps"]%string [[]]
           (Forall_cons _ eq_refl (Forall_nil _))).
Defined.

Lemma field_cells_of_floats (float_of_string : string -> option Q)
    (fields : list string) (qs : list Q) :
  map float_of_string fields = map Some qs ->
  map (field_cell float_of_string) fields = floats qs.
Proof.
  revert qs. induction fields as [| s fields IH]; intros [| q qs] H;
    try discriminate H; [reflexivity |].
  cbn [map] in H. injection H as Hs Hrest.
  cbn [map floats]. unfold field_cell at 1. rewrite Hs.
  f_equal. exact (IH qs Hrest).
Qed.

(** From the file to a valid trajectory.  Take a file with distinct field
    names, among them [t_s], [x_m], [y_m] and [v_mps], and rows that are
    blank or full.  If [float] accepts every field of these four columns,
    the first [t_s] value is positive, and the later ones are non-negative
    and non-decreasing, then the script builds a valid trajectory: one
    sample per row of data, the first [t_s] value as lap time, and the
    positions and velocities read from the columns [x_m], [y_m] and
    [v_mps]. *)
Theorem main_builds_valid_trajectory
    (float_of_string : string -> option Q)
    (fieldnames : list string) (rows : list (list string))
    (it ix iy iv : nat) (lap : Q) (later xs ys vs : list Q) :
  NoDup fieldnames ->
  nth_error fieldnames it = Some "t_s"%string ->
  nth_error fieldnames ix = Some "x_m"%string ->
  nth_error fieldnames iy = Some "y_m"%string ->
  nth_error fieldnames iv = Some "v_mps"%string ->
  Forall (full_or_blank fieldnames) rows ->
  map float_of_string (column it (data_rows rows))
  = map Some (lap :: later) ->
  map float_of_string (column ix (data_rows rows)) = map Some xs ->
  map float_of_string (column iy (data_rows rows)) = map Some ys ->
  map float_of_string (column iv (data_rows rows)) = map Some vs ->
  0 < lap -> nondecreasing (0 :: later) ->
  exists T,
    main float_of_string (fieldnames :: rows) = Return T /\
    valid_with T (0 :: later) lap /\
    size T = length (data_rows rows) /\
    _x T = floats xs /\ _y T = floats ys /\ _v T = floats vs.
Proof.
  intros Hnd Ht Hx Hy Hv Hshape Hfloats Hxs Hys Hvs Hpos Hsorted.
  destruct (read_csv_full float_of_string fieldnames rows Hnd Hshape)
    as (data & Hread & _ & Hcol).
  assert (Hlen : length (data_rows rows) = S (length later)).
  { apply (f_equal (@length _)) in Hfloats.
    unfold column in Hfloats. rewrite !length_map in Hfloats.
    cbn [length] in Hfloats. exact Hfloats. }
  assert (Hcollen : forall i,
            length (map (field_cell float_of_string)
                        (column i (data_rows rows)))
            = S (length later)).
  { intro i. unfold column. rewrite !length_map. exact Hlen. }
  destruct (main_trajectory_valid_columns data _ _ _ lap later
              (Hcol ix _ Hx) (Hcol iy _ Hy) (Hcol iv _ Hv))
    as (T & Hmain & Hvalid & HTx & HTy & HTv);
    try apply Hcollen; try assumption.
  { rewrite (Hcol it _ Ht). f_equal.
    apply field_cells_of_floats. exact Hfloats. }
  exists T. unfold main. rewrite Hread. cbn [obind].
  split; [exact Hmain | split; [exact Hvalid | split; [| split; [| split]]]].
  - unfold size. rewrite HTx, Hcollen, Hlen. reflexivity.
  - rewrite HTx. apply field_cells_of_floats. exact Hxs.
  - rewrite HTy. apply field_cells_of_floats. exact Hys.
  - rewrite HTv. apply field_cells_of_floats. exact Hvs.
Qed.

Lemma main_builds_valid_trajectory_witness :
  exists T,
    main digits_float file3 = Return T /\
    valid_with T [0; 1; 2] 3 /\
    size T = length (data_rows (tl file3)) /\
    _x T = floats [0; 1; 2] /\ _y T = floats [0; 0; 0] /\
    _v T = floats [5; 5; 5].
Proof.
  apply (main_builds_valid_trajectory digits_float (hd [] file3) (tl file3)
           0 1 2 3 3 [1; 2] [0; 1; 2] [0; 0; 0] [5; 5; 5]);
    try reflexivity.
  - exact (proj1 file3_shape).
  - exact (proj2 file3_shape).
  - cbn [nondecreasing]. repeat split; discriminate.
Defined.

(** * The code over float64: lemmas *)

Section FltLemmas.

Variable A : Flt.arithmetic.

(** ** The scan of argmin *)

Lemma argmin_from_bound (rest : list (Flt.num A)) :
  forall bi b i, (bi < i)%nat ->
    (Flt.argmin_from A bi b i rest < i + length rest)%nat.
Proof.
  induction rest as [| x rest IH]; intros bi b i Hbi; cbn [Flt.argmin_from].
  - cbn [length]. lia.
  - cbn [length]. destruct (Flt.ge A x b).
    + specialize (IH bi b (S i)). lia.
    + destruct (Flt.isnan A x); [lia |].
      specialize (IH i x (S i)). lia.
Qed.

(** On a non-empty array [argmin] returns an index of the array, whatever
    the order of the floats is. *)
Lemma argmin_returns (l : list (Flt.num A)) :
  l <> [] -> exists k, Flt.argmin l = Flt.Ok k /\ (k < length l)%nat.
Proof.
  destruct l as [| x rest]; [congruence |]. intros _.
  cbn [Flt.argmin length]. destruct (Flt.isnan A x).
  - exists 0%nat. split; [reflexivity | lia].
  - eexists. split; [reflexivity |].
    pose proof (argmin_from_bound rest 0 x 1). lia.
Qed.

Section Ordered.

Hypothesis HO : Flt.ordered A.

Lemma at_most_refl_nonnan (x : Flt.num A) :
  Flt.isnan A x = false -> Flt.ge A x x = true.
Proof.
  intro H. destruct (Flt.ge_total A HO x x H H); assumption.
Qed.

Lemma ge_nonnan (x y : (Flt.num A)) :
  Flt.ge A x y = true -> Flt.isnan A x = false /\ Flt.isnan A y = false.
Proof.
  intro H. split.
  - destruct (Flt.isnan A x) eqn:E; [| reflexivity].
    rewrite (Flt.ge_nan_l A HO x y E) in H. discriminate H.
  - destruct (Flt.isnan A y) eqn:E; [| reflexivity].
    rewrite (Flt.ge_nan_r A HO x y E) in H. discriminate H.
Qed.

Lemma scanned_keep (pre : list (Flt.num A)) (bi : nat) (x : Flt.num A) :
  Flt.scanned pre bi -> Flt.ge A x (nth bi pre (Flt.float_0 A)) = true ->
  Flt.scanned (pre ++ [x]) bi.
Proof.
  intros (Hnn & Hlt & Hmin & Hfst) Hge.
  destruct (ge_nonnan _ _ Hge) as (Hx & Hb).
  split.
  - apply Forall_app. split; [exact Hnn | constructor; [exact Hx | constructor]].
  - unfold Flt.first_least. rewrite length_app. cbn [length].
    rewrite (app_nth1 pre [x] (Flt.float_0 A) Hlt).
    split; [lia | split].
    + intros j Hj. destruct (Nat.eq_dec j (length pre)) as [-> | Hne].
      * rewrite app_nth2, Nat.sub_diag by lia. cbn [nth].
        right. split; assumption.
      * rewrite app_nth1 by lia. apply Hmin. lia.
    + intros j Hj. rewrite app_nth1 by lia. apply Hfst. exact Hj.
Qed.

Lemma scanned_replace (pre : list (Flt.num A)) (bi : nat) (x : Flt.num A) :
  Flt.scanned pre bi -> Flt.ge A x (nth bi pre (Flt.float_0 A)) = false ->
  Flt.isnan A x = false ->
  Flt.scanned (pre ++ [x]) (length pre).
Proof.
  intros (Hnn & Hlt & Hmin & Hfst) Hge Hx.
  assert (Hb : Flt.isnan A (nth bi pre (Flt.float_0 A)) = false).
  { rewrite Forall_forall in Hnn. apply Hnn. apply nth_In. exact Hlt. }
  assert (Hlt' : Flt.ge A (nth bi pre (Flt.float_0 A)) x = true).
  { destruct (Flt.ge_total A HO x (nth bi pre (Flt.float_0 A)) Hx Hb) as [H | H];
      [rewrite H in Hge; discriminate Hge | exact H]. }
  assert (Hn : nth (length pre) (pre ++ [x]) (Flt.float_0 A) = x)
    by (rewrite app_nth2, Nat.sub_diag by lia; reflexivity).
  split.
  - apply Forall_app. split; [exact Hnn | constructor; [exact Hx | constructor]].
  - unfold Flt.first_least. rewrite Hn, length_app. cbn [length].
    split; [lia | split].
    + intros j Hj. destruct (Nat.eq_dec j (length pre)) as [-> | Hne].
      * rewrite Hn. right. split; [exact Hx | apply at_most_refl_nonnan, Hx].
      * rewrite app_nth1 by lia.
        assert (Hj' : (j < length pre)%nat) by lia.
        destruct (Hmin j Hj') as [Hnan | (Hjn & Hjb)];
          [rewrite Hb in Hnan; discriminate Hnan |].
        right. split; [exact Hjn |].
        exact (Flt.ge_trans A HO _ _ _ Hjb Hlt').
    + intros j Hj. rewrite app_nth1 by lia.
      intros [Hnan | (_ & Hxj)].
      * rewrite Forall_forall in Hnn.
        rewrite (Hnn _ (nth_In pre (Flt.float_0 A) Hj)) in Hnan. discriminate Hnan.
      * destruct (Hmin j Hj) as [Hnan | (_ & Hjb)];
          [rewrite Hb in Hnan; discriminate Hnan |].
        rewrite (Flt.ge_trans A HO _ _ _ Hxj Hjb) in Hge. discriminate Hge.
Qed.

Lemma first_least_nan (pre rest : list (Flt.num A)) (x : Flt.num A) :
  Forall (fun y => Flt.isnan A y = false) pre -> Flt.isnan A x = true ->
  Flt.first_least (pre ++ x :: rest) (length pre).
Proof.
  intros Hnn Hx.
  assert (Hn : nth (length pre) (pre ++ x :: rest) (Flt.float_0 A) = x)
    by (rewrite app_nth2, Nat.sub_diag by lia; reflexivity).
  unfold Flt.first_least. rewrite Hn, length_app. cbn [length].
  split; [lia | split].
  - intros j _. left. exact Hx.
  - intros j Hj. rewrite app_nth1 by lia.
    rewrite Forall_forall in Hnn.
    pose proof (Hnn _ (nth_In pre (Flt.float_0 A) Hj)) as Hjn.
    intros [Hnan | (Hxn & _)];
      [rewrite Hjn in Hnan; discriminate Hnan
      | rewrite Hx in Hxn; discriminate Hxn].
Qed.

Lemma argmin_from_first_least (rest : list (Flt.num A)) :
  forall (pre : list (Flt.num A)) (bi : nat),
    Flt.scanned pre bi ->
    Flt.first_least (pre ++ rest)
      (Flt.argmin_from A bi (nth bi pre (Flt.float_0 A)) (length pre) rest).
Proof.
  induction rest as [| x rest IH]; intros pre bi Hs.
  - rewrite app_nil_r. exact (proj2 Hs).
  - cbn [Flt.argmin_from].
    destruct (Flt.ge A x (nth bi pre (Flt.float_0 A))) eqn:Hge.
    + pose proof (scanned_keep pre bi x Hs Hge) as Hs'.
      specialize (IH _ _ Hs').
      rewrite (app_nth1 pre [x] (Flt.float_0 A) (proj1 (proj2 Hs))) in IH.
      rewrite length_app, <- app_assoc in IH. cbn [length app] in IH.
      replace (length pre + 1)%nat with (S (length pre)) in IH by lia.
      exact IH.
    + destruct (Flt.isnan A x) eqn:Hx.
      * apply first_least_nan; [exact (proj1 Hs) | exact Hx].
      * pose proof (scanned_replace pre bi x Hs Hge Hx) as Hs'.
        specialize (IH _ _ Hs').
        rewrite app_nth2, Nat.sub_diag in IH by lia. cbn [nth] in IH.
        rewrite length_app, <- app_assoc in IH. cbn [length app] in IH.
        replace (length pre + 1)%nat with (S (length pre)) in IH by lia.
        exact IH.
Qed.

(** [argmin] returns the first index of the least value. *)
Lemma argmin_first_least (l : list (Flt.num A)) (k : nat) :
  Flt.argmin l = Flt.Ok k -> Flt.first_least l k.
Proof.
  destruct l as [| x rest]; [intro H; discriminate H |].
  cbn [Flt.argmin]. destruct (Flt.isnan A x) eqn:Hx; intro H;
    injection H as <-.
  - exact (first_least_nan [] rest x (Forall_nil _) Hx).
  - apply (argmin_from_first_least rest [x] 0%nat).
    split; [constructor; [exact Hx | constructor] |].
    unfold Flt.first_least. cbn [length]. split; [lia | split].
    + intros j Hj. replace j with 0%nat by lia. cbn [nth].
      right. split; [exact Hx | apply at_most_refl_nonnan, Hx].
    + intros j Hj. lia.
Qed.

End Ordered.

(** ** The lookup on a valid trajectory *)

Lemma computed_distances_length (ts : list (Flt.num A)) (lap time : Flt.num A) :
  length (Flt.computed_distances ts lap time) = S (length ts).
Proof.
  unfold Flt.computed_distances. rewrite !length_map, length_app.
  cbn [length]. lia.
Qed.

Lemma distances_on_valid (T : Flt.Trajectory A) (ts : list (Flt.num A))
    (lap time : Flt.num A) :
  Flt.valid_with T ts lap ->
  Flt.distances T time = Flt.Ok (Flt.computed_distances ts lap time).
Proof.
  intros (_ & Hlap & Ht2 & _ & _ & _ & _ & _ & Hnz & _).
  unfold Flt.distances, Flt.mod_cell. rewrite Hlap, Hnz.
  cbn [Flt.bind]. rewrite Ht2. reflexivity.
Qed.

Lemma lookup_on_valid (T : Flt.Trajectory A) (ts : list (Flt.num A))
    (lap time : Flt.num A) :
  Flt.valid_with T ts lap ->
  exists k,
    Flt.argmin (Flt.computed_distances ts lap time) = Flt.Ok k /\
    (k <= length ts)%nat /\
    Flt.closest_point_time T time
    = Flt.Ok (nth (Nat.modulo k (length ts))
              (Flt.computed_distances ts lap time) (Flt.float_0 A),
          Nat.modulo k (length ts)).
Proof.
  intro HV. pose proof (distances_on_valid T ts lap time HV) as Hd.
  destruct HV as (Ht & _ & _ & HN & (xs & Hx & Hxl) & _).
  destruct (argmin_returns (Flt.computed_distances ts lap time))
    as (k & Hk & Hlt).
  { intro E. pose proof (computed_distances_length ts lap time) as L.
    rewrite E in L. discriminate L. }
  rewrite computed_distances_length in Hlt.
  exists k. split; [exact Hk | split; [lia |]].
  unfold Flt.closest_point_time. rewrite Ht.
  destruct ts as [| t0 ts']; [cbn in HN; lia |].
  cbn [Flt.getitem Flt.elements map nth_error Flt.bind Flt.element_is_None].
  rewrite Hd. cbn [Flt.bind]. rewrite Hk. cbn [Flt.bind].
  unfold Flt.size, Flt.len. rewrite Hx. cbn [Flt.elements].
  rewrite length_map, Hxl.
  cbn [Flt.imod length].
  pose proof (Nat.mod_upper_bound k (length (t0 :: ts'))) as Hm.
  cbn [length] in Hm.
  unfold Flt.getnum.
  rewrite (nth_error_nth' _ (Flt.float_0 A))
    by (rewrite computed_distances_length; cbn [length]; lia).
  reflexivity.
Qed.

Lemma positions_on_valid (T : Flt.Trajectory A) (ts : list (Flt.num A)) (lap : Flt.num A)
    (i : nat) :
  Flt.valid_with T ts lap -> (i < length ts)%nat ->
  exists px py,
    Flt.getitem (Flt._x T) i = Flt.Ok (Flt.ENum px) /\
    Flt.getitem (Flt._y T) i = Flt.Ok (Flt.ENum py).
Proof.
  intros (_ & _ & _ & _ & (xs & Hx & Hxl) & (ys & Hy & Hyl) & _) Hi.
  unfold Flt.getitem. rewrite Hx, Hy. cbn [Flt.elements].
  rewrite !nth_error_map.
  destruct (nth_error xs i) as [px |] eqn:Ex;
    [| apply nth_error_None in Ex; lia].
  destruct (nth_error ys i) as [py |] eqn:Ey;
    [| apply nth_error_None in Ey; lia].
  exists px, py. split; reflexivity.
Qed.

End FltLemmas.

(** ** binary64 is ordered *)

Lemma SFleb_key (x y : spec_float) :
  Flt.b64_isnan x = false -> Flt.b64_isnan y = false ->
  (SFleb x y = true <-> Flt.lex_le (Flt.key x) (Flt.key y)).
Proof.
  intros Hx Hy. unfold SFleb, Flt.lex_le.
  destruct x as [sx | sx | | sx mx ex]; try discriminate Hx;
    destruct y as [sy | sy | | sy my ey]; try discriminate Hy;
    cbn [SFcompare Flt.key];
    repeat match goal with s : bool |- _ => destruct s end;
    try change (Pos.compare_cont Eq mx my) with (Pos.compare mx my);
    try (destruct (Z.compare_spec ex ey); destruct (Pos.compare_spec mx my));
    cbn [CompOpp fst snd]; split; intro HH;
    solve [reflexivity | discriminate HH | lia].
Qed.

Lemma binary64_ordered : Flt.ordered Flt.binary64.
Proof.
  constructor; cbn [Flt.ge Flt.isnan Flt.binary64].
  - intros x y Hx. destruct x; try discriminate Hx.
    destruct y; reflexivity.
  - intros x y Hy. destruct y; try discriminate Hy.
    destruct x; reflexivity.
  - intros x y Hx Hy.
    rewrite (SFleb_key y x Hy Hx), (SFleb_key x y Hx Hy).
    unfold Flt.lex_le.
    destruct (Flt.key x) as [[a1 a2] a3], (Flt.key y) as [[b1 b2] b3].
    cbn [fst snd]. lia.
  - intros x y z Hxy Hyz.
    assert (Hn : forall a b, SFleb a b = true ->
              Flt.b64_isnan a = false /\ Flt.b64_isnan b = false).
    { intros a b H. destruct a, b; try discriminate H; split; reflexivity. }
    destruct (Hn _ _ Hxy) as (Hy & Hx). destruct (Hn _ _ Hyz) as (Hz & _).
    rewrite (SFleb_key _ _ Hz Hx).
    rewrite (SFleb_key _ _ Hy Hx) in Hxy.
    rewrite (SFleb_key _ _ Hz Hy) in Hyz.
    unfold Flt.lex_le in *.
    destruct (Flt.key x) as [[a1 a2] a3], (Flt.key y) as [[b1 b2] b3],
      (Flt.key z) as [[c1 c2] c3].
    cbn [fst snd] in *. lia.
Qed.

(** ** Arrays *)

Lemma all_floats_floats (A : Flt.arithmetic) (fs : list (Flt.num A)) :
  Flt.all_floats A (map Flt.PyFloat fs) = Some fs.
Proof.
  induction fs as [| f fs IH]; cbn [map Flt.all_floats]; [reflexivity |].
  rewrite IH. reflexivity.
Qed.

Lemma all_floats_length (A : Flt.arithmetic) (col : list (Flt.cell A))
    (fs : list (Flt.num A)) :
  Flt.all_floats A col = Some fs -> length fs = length col.
Proof.
  revert fs. induction col as [| c col IH]; intros fs H.
  - injection H as <-. reflexivity.
  - destruct c as [| f | s]; try discriminate H. cbn [Flt.all_floats] in H.
    destruct (Flt.all_floats A col) as [fs' |]; [| discriminate H].
    injection H as <-. cbn [length]. rewrite (IH fs' eq_refl). reflexivity.
Qed.

(** [numpy.asarray] keeps the length of a column. *)
Lemma len_asarray (A : Flt.arithmetic) (col : list (Flt.cell A)) :
  Flt.len (Flt.asarray col) = length col.
Proof.
  unfold Flt.len, Flt.asarray.
  destruct (Flt.all_floats A col) as [fs |] eqn:E.
  - cbn [Flt.elements]. rewrite length_map. exact (all_floats_length A _ _ E).
  - destruct (existsb (Flt.is_None A) col); cbn [Flt.elements];
      rewrite !length_map; reflexivity.
Qed.

(** A column of floats is stored as it is. *)
Lemma asarray_floats (A : Flt.arithmetic) (fs : list (Flt.num A)) :
  Flt.asarray (map Flt.PyFloat fs) = Flt.FloatArray fs.
Proof. unfold Flt.asarray. rewrite all_floats_floats. reflexivity. Qed.

(** A column mixing a number and text is stored as strings. *)
Example asarray_mixed_column :
  Flt.asarray [@Flt.PyFloat Flt.binary64 (Flt.round_int 0); Flt.PyStr "abc"]
  = Flt.StrArray [@Flt.StrOfFloat Flt.binary64 (Flt.round_int 0);
                  Flt.Str "abc"].
Proof. reflexivity. Qed.

(** * Construction, over arrays *)

(** C2, amended.  Construction checks none of the listed conditions: for
    all columns and every lap time it succeeds and stores the numpy arrays
    of the columns, each as long as its column, a column of floats
    unchanged, together with the array of the wrapped times, which has one
    entry more than the times.  It only raises, a [TypeError], when no list
    of times is given. *)
Theorem C2_construction_stores_arrays_unchecked (A : Flt.arithmetic)
    (x y t v : list (Flt.cell A)) (lap_time : Flt.cell A) :
  Flt.Trajectory_init x y None v lap_time = Flt.Raise Flt.TypeError /\
  (exists T,
     Flt.Trajectory_init x y (Some t) v lap_time = Flt.Ok T /\
     Flt._x T = Flt.asarray x /\ Flt._y T = Flt.asarray y /\
     Flt._t T = Flt.asarray t /\ Flt._v T = Flt.asarray v /\
     Flt._t2 T = Flt.asarray (t ++ [lap_time]) /\
     Flt._lap_time T = lap_time /\
     Flt.len (Flt._x T) = length x /\ Flt.len (Flt._y T) = length y /\
     Flt.len (Flt._t T) = length t /\ Flt.len (Flt._v T) = length v /\
     Flt.len (Flt._t2 T) = S (length t)) /\
  (forall fs : list (Flt.num A),
     Flt.asarray (map Flt.PyFloat fs) = Flt.FloatArray fs).
Proof.
  split; [reflexivity | split; [| apply asarray_floats]].
  eexists. split; [reflexivity |].
  cbn [Flt._x Flt._y Flt._t Flt._v Flt._t2 Flt._lap_time].
  rewrite !len_asarray, length_app. cbn [length].
  repeat split. lia.
Qed.

(** * The node, over float64 *)

(** C3, the claim.  With the rate -1, a base class and a publisher that
    are set up, and a timer that accepts the period, the node is built and
    the timer runs with the period -1.0: the node itself rejects no
    negative rate. *)
Lemma C3_negative_rate_reaches_timer :
  (-1 <= 0)%Z /\
  Flt.ReplayNode_init (A := Flt.binary64) (Flt.Ok tt) (Flt.Ok tt)
    (fun period => Flt.Ok period) Flt.traj3 (-1) "map"
  = Flt.Ok (Flt.mkReplayNode Flt.binary64 unit spec_float
              Flt.traj3 "map" tt (Flt.dec (-1) 1)).
Proof. split; [lia | reflexivity]. Qed.

(** C3, amended.  The node first sets up the base class and the publisher;
    an exception of either ends the construction.  Then [1. / rate] is
    computed: a rate that does not convert to a float raises an
    [OverflowError], a rate whose float is zero a [ZeroDivisionError], both
    before the timer is created; for every other rate, positive or
    negative, the period handed to the timer is the float [1. / rate], and
    the node is built exactly when the timer accepts it.  In binary64 the
    rate 0 is of the second kind and the rate [2^1024] of the first. *)
Theorem C3_rate_outcomes (A : Flt.arithmetic) (publisher timer : Type)
    (pub : publisher) (create_timer : Flt.num A -> Flt.result timer)
    (T : Flt.Trajectory A) (rate : Z) (frame_id : string) :
  (forall e (create_publisher : Flt.result publisher),
     Flt.ReplayNode_init (Flt.Raise e) create_publisher create_timer
       T rate frame_id
     = Flt.Raise e) /\
  (forall e,
     Flt.ReplayNode_init (publisher := publisher) (Flt.Ok tt) (Flt.Raise e)
       create_timer T rate frame_id
     = Flt.Raise e) /\
  match Flt.of_int A rate with
  | None =>
      Flt.ReplayNode_init (Flt.Ok tt) (Flt.Ok pub) create_timer
        T rate frame_id
      = Flt.Raise Flt.OverflowError
  | Some r =>
      if Flt.is_zero A r then
        Flt.ReplayNode_init (Flt.Ok tt) (Flt.Ok pub) create_timer
          T rate frame_id
        = Flt.Raise Flt.ZeroDivisionError
      else
        Flt.ReplayNode_init (Flt.Ok tt) (Flt.Ok pub) create_timer
          T rate frame_id
        = Flt.bind (create_timer (Flt.div A (Flt.float_1 A) r))
            (fun tm => Flt.Ok (Flt.mkReplayNode A publisher timer
                                 T frame_id pub tm))
  end /\
  (exists z, Flt.of_int Flt.binary64 0 = Some z /\
             Flt.is_zero Flt.binary64 z = true) /\
  Flt.of_int Flt.binary64 (2 ^ 1024) = None.
Proof.
  split; [| split; [| split; [| split]]].
  - intros e create_publisher. reflexivity.
  - intro e. reflexivity.
  - unfold Flt.ReplayNode_init, Flt.truediv_1. cbn [Flt.bind].
    destruct (Flt.of_int A rate) as [r |]; [| reflexivity].
    destruct (Flt.is_zero A r); reflexivity.
  - eexists. split; reflexivity.
  - vm_compute. reflexivity.
Qed.

(** * The lookup, over float64 *)



Lemma traj3_valid64 :
  Flt.valid_with Flt.traj3 (map Flt.round_int [0; 1; 2]%Z) (Flt.round_int 3).
Proof.
  unfold Flt.valid_with.
  repeat split; try (eexists; split; reflexivity); try reflexivity.
  cbn [length map]. lia.
Qed.







(** At 1.5 the samples of index 1 and 2 are equally far; the first one is
    returned. *)
Example tie_at_one_and_a_half :
  Flt.closest_point_time Flt.traj3 (Flt.dec 3 2)
  = Flt.Ok (Flt.dec 1 2, 1%nat).
Proof. vm_compute. reflexivity. Qed.

(** At 4.287225, between the times 0.942 and 7.63245, the second is the
    nearer one by 2^-52 s; the two computed distances are the same float,
    and the first of the two indices is returned. *)
Example tie_made_by_rounding :
  (exists a d b,
     Flt.distances Flt.traj_rounded (Flt.dec 4287225 1000000)
     = Flt.Ok [a; d; d; b]) /\
  Flt.closest_point_time Flt.traj_rounded (Flt.dec 4287225 1000000)
  = Flt.Ok (S754_finite false 7532777031735234 (-51), 1%nat).
Proof.
  split; [do 3 eexists |]; vm_compute; reflexivity.
Qed.

(** * The timer callback, over float64 *)

Lemma loop_on_valid (A : Flt.arithmetic) (publisher timer : Type)
    (self : Flt.ReplayNode A publisher timer) (ts : list (Flt.num A))
    (lap s : Flt.num A) (now : Z) (published : list (Flt.Odometry A)) :
  Flt.valid_with (Flt._trajectory self) ts lap ->
  Flt.to_seconds now = Flt.Ok s ->
  exists d index px py,
    Flt.closest_point_time (Flt._trajectory self) s = Flt.Ok (d, index) /\
    (index < length ts)%nat /\
    Flt.getitem (Flt._x (Flt._trajectory self)) index
    = Flt.Ok (Flt.ENum px) /\
    Flt.getitem (Flt._y (Flt._trajectory self)) index
    = Flt.Ok (Flt.ENum py) /\
    Flt.loop self now published
    = Flt.Ok (published ++
              [ Flt.mkOdometry A (Flt._frame_id self) now
                  (Flt.ENum px) (Flt.ENum py) ]).
Proof.
  intros HV Hs.
  destruct (lookup_on_valid A _ ts lap s HV) as (k & _ & _ & Hres).
  assert (Hi : (Nat.modulo k (length ts) < length ts)%nat).
  { destruct HV as (_ & _ & _ & HN & _).
    apply Nat.mod_upper_bound. lia. }
  destruct (positions_on_valid A _ ts lap _ HV Hi) as (px & py & Hx & Hy).
  do 2 eexists. exists px, py.
  split; [exact Hres | split; [exact Hi | split; [exact Hx |
    split; [exact Hy |]]]].
  unfold Flt.loop. rewrite Hs. cbn [Flt.bind]. rewrite Hres.
  cbn [Flt.bind snd]. rewrite Hx, Hy. reflexivity.
Qed.

(** C7, amended.  On each tick of a node with a valid trajectory the loop
    converts the clock reading itself, not a time elapsed since a start,
    to float seconds, looks that float up, and hands exactly one more
    message to the publisher: it carries the x and y of the returned
    index, the clock reading as stamp and the frame id of the node. *)
Theorem C7_one_message_per_tick_at_float_clock_time
    (A : Flt.arithmetic) (publisher timer : Type)
    (self : Flt.ReplayNode A publisher timer) (ts : list (Flt.num A))
    (lap s : Flt.num A) (now : Z) (published : list (Flt.Odometry A)) :
  Flt.valid_with (Flt._trajectory self) ts lap ->
  Flt.to_seconds now = Flt.Ok s ->
  exists d index px py,
    Flt.closest_point_time (Flt._trajectory self) s = Flt.Ok (d, index) /\
    (index < length ts)%nat /\
    Flt.getitem (Flt._x (Flt._trajectory self)) index
    = Flt.Ok (Flt.ENum px) /\
    Flt.getitem (Flt._y (Flt._trajectory self)) index
    = Flt.Ok (Flt.ENum py) /\
    Flt.loop self now published
    = Flt.Ok (published ++
              [ Flt.mkOdometry A (Flt._frame_id self) now
                  (Flt.ENum px) (Flt.ENum py) ]).
Proof.
  exact (loop_on_valid A publisher timer self ts lap s now published).
Qed.

Lemma C7_one_message_per_tick_at_float_clock_time_witness :
  Flt.to_seconds (A := Flt.binary64) 1700000000500000001
  = Flt.Ok (Flt.dec 17000000005 10) /\
  exists d index px py,
    Flt.closest_point_time (Flt._trajectory Flt.node3)
      (Flt.dec 17000000005 10)
    = Flt.Ok (d, index) /\
    (index < length (map Flt.round_int [0; 1; 2]%Z))%nat /\
    Flt.getitem (Flt._x (Flt._trajectory Flt.node3)) index
    = Flt.Ok (Flt.ENum px) /\
    Flt.getitem (Flt._y (Flt._trajectory Flt.node3)) index
    = Flt.Ok (Flt.ENum py) /\
    Flt.loop Flt.node3 1700000000500000001 []
    = Flt.Ok ([] ++
              [ Flt.mkOdometry Flt.binary64 (Flt._frame_id Flt.node3)
                  1700000000500000001 (Flt.ENum px) (Flt.ENum py) ]).
Proof.
  split; [vm_compute; reflexivity |].
  apply (C7_one_message_per_tick_at_float_clock_time Flt.binary64 unit unit
           Flt.node3 _ (Flt.round_int 3) _ 1700000000500000001 []
           traj3_valid64).
  vm_compute. reflexivity.
Defined.

(** The clock reading 1700000000.500000001 s is looked up as 1700000000.5:
    the node publishes the sample of index 2. *)
Example rounded_clock_reading :
  Flt.loop Flt.node3 1700000000500000001 []
  = Flt.Ok [ Flt.mkOdometry Flt.binary64 "map" 1700000000500000001
               (Flt.ENum (A := Flt.binary64) (Flt.round_int 2))
               (Flt.ENum (A := Flt.binary64) (Flt.round_int 0)) ].
Proof. reflexivity. Qed.

(** On a node with a valid trajectory, a run of any number of firings at
    clock readings that convert to floats raises nothing and publishes
    exactly one message per firing: the messages published before are
    kept, and the new ones are stamped with the clock readings, in
    order. *)
Theorem ticks_publish_one_message_each (A : Flt.arithmetic)
    (publisher timer : Type) (self : Flt.ReplayNode A publisher timer)
    (ts : list (Flt.num A)) (lap : Flt.num A) (nows : list Z)
    (published : list (Flt.Odometry A)) :
  Flt.valid_with (Flt._trajectory self) ts lap ->
  Forall (fun now => exists s, Flt.to_seconds (A := A) now = Flt.Ok s)
         nows ->
  exists msgs,
    Flt.ticks self nows published = Flt.Ok (published ++ msgs) /\
    map Flt.header_stamp msgs = nows /\
    Forall (Flt.tick_message self) msgs.
Proof.
  intros HV Hconv. revert published.
  induction nows as [| now later IH]; intro published.
  - exists []. rewrite app_nil_r. repeat split. constructor.
  - inversion Hconv as [| ? ? (s & Hs) Hlater]; subst.
    destruct (loop_on_valid A publisher timer self ts lap s now published
                HV Hs)
      as (d & i & px & py & Hres & _ & Hx & Hy & Hloop).
    destruct (IH Hlater
                (published ++
                 [Flt.mkOdometry A (Flt._frame_id self) now
                    (Flt.ENum px) (Flt.ENum py)]))
      as (msgs & Hrun & Hstamps & Hall).
    eexists (_ :: msgs). cbn [Flt.ticks]. rewrite Hloop. cbn [Flt.bind].
    rewrite Hrun, <- app_assoc. split; [reflexivity | split].
    + cbn [map Flt.header_stamp]. rewrite Hstamps. reflexivity.
    + constructor; [| exact Hall].
      split; [reflexivity |]. exists s, d, i.
      cbn [Flt.header_stamp Flt.position_x Flt.position_y].
      repeat split; assumption.
Qed.

Lemma ticks_publish_one_message_each_witness :
  exists msgs,
    Flt.ticks Flt.node3 [100000000; 200000000; 1700000000500000001]%Z []
    = Flt.Ok ([] ++ msgs) /\
    map Flt.header_stamp msgs
    = [100000000; 200000000; 1700000000500000001]%Z /\
    Forall (Flt.tick_message Flt.node3) msgs.
Proof.
  apply (ticks_publish_one_message_each Flt.binary64 unit unit Flt.node3
           _ (Flt.round_int 3) _ [] traj3_valid64).
  repeat constructor; eexists; vm_compute; reflexivity.
Defined.

(** At the inputs of the statements on the exact model the float code
    gives the same: the sentinel wins at 2.9 and the delta of index 0 is
    returned; the clock reading of 1 s is looked up as 1.0. *)
Example float_lookup_at_2_9 :
  Flt.closest_point_time Flt.traj3 (Flt.dec 29 10)
  = Flt.Ok (Flt.dec 29 10, 0%nat).
Proof. vm_compute. reflexivity. Qed.

Example float_loop_at_one_second :
  Flt.loop Flt.node3 1000000000 []
  = Flt.Ok [ Flt.mkOdometry Flt.binary64 "map" 1000000000
               (Flt.ENum (A := Flt.binary64) (Flt.round_int 1))
               (Flt.ENum (A := Flt.binary64) (Flt.round_int 0)) ].
Proof. reflexivity. Qed.
